(** * Tasked: the task board's derived views and metrics

    A shallow embedding of the pure core of [src/components/TaskedApp.jsx]:
    the filter, sort and group pipeline behind the board, the state
    updaters ([handleCreateTask], [handleToggleComplete],
    [handleStatusChange], [handleDeleteTask]), [calculateMetrics] with its
    helpers [calculateStreak] and [determineFocusArea], the lists of the
    side panel, and the date helpers [addDays], [formatDueDate] and
    [timeSince].

    Conventions.
    - A task is the plain JS object of the source.  An absent (or
      [undefined]/[null]) property is [None].
    - Instants are integer milliseconds since the epoch ([Z]); [dueDate],
      an ISO string in the source, is carried as the instant it parses to.
    - [Date.now()] is an explicit argument [now]; the local time zone is
      an instance of the class [Calendar].
    - The two locale-dependent string primitives [trim] and [toLowerCase]
      are the fields of the class [HostStrings].
    - [Date.now()] is read once per call: the source reads the clock
      again for each task and for the streak, within one synchronous run.
    - Arithmetic of [calculateMetrics] is done over the rationals [Q]: the
      source divides and compares small non-negative integers, and the
      comparisons it makes (against 0, 3, 0.8, 0.5 and the ceiling of
      [0.4 * n]) come out the same on the exact quotient.  A division by
      0, which gives [NaN] or an infinity in the source, has no value in
      [Q]: [divide] returns [None] there.  The percentages of [byStatus],
      where rounding the double matters, are computed on IEEE 754 doubles
      as the Standard Library specifies them. *)

From Stdlib Require Import ZArith QArith Qround String Ascii.
From Stdlib Require Floats.SpecFloat.
From stdpp Require Import base option list sorting gmap strings pretty.

Local Open Scope string_scope.
Local Open Scope list_scope.
Local Open Scope Z_scope.

(** ** Data model *)

Record Task := mkTask {
  id : string;
  title : string;
  description : option string;
  dueDate : option Z;
  status : string;
  priority : string;
  tags : option (list string);
  createdAt : option Z;
  completedAt : option Z;
}.

(** [Object.keys(STATUS_LABELS)], in source order. *)
Definition STATUS_KEYS : list string :=
  ["today"; "upcoming"; "backlog"; "completed"].

(** [Object.keys(PRIORITY_LABELS)]. *)
Definition PRIORITY_KEYS : list string := ["high"; "medium"; "low"].

Definition known_status (t : Task) : Prop := status t ∈ STATUS_KEYS.
Definition known_priority (t : Task) : Prop := priority t ∈ PRIORITY_KEYS.

(** JS truthiness of a numeric property: [undefined] and [0] are falsy. *)
Definition truthy_num (o : option Z) : bool :=
  match o with
  | Some z => negb (z =? 0)
  | None => false
  end.

(** ** Host string primitives *)

Class HostStrings := {
  toLowerCase : string → string;
  trim : string → string;
}.

(** [h.startsWith(n)] *)
Fixpoint startsWith (n h : string) : bool :=
  match n, h with
  | EmptyString, _ => true
  | String _ _, EmptyString => false
  | String a n', String b h' => if Ascii.eqb a b then startsWith n' h' else false
  end.

(** [h.includes(n)]: [n] occurs in [h] at some offset. *)
Fixpoint includes (h n : string) : bool :=
  startsWith n h ||
  match h with
  | EmptyString => false
  | String _ h' => includes h' n
  end.

(** [parts.join(sep)] *)
Fixpoint join (sep : string) (parts : list string) : string :=
  match parts with
  | [] => ""
  | [p] => p
  | p :: rest => p +:+ sep +:+ join sep rest
  end.

(** ASCII instance, used to run the definitions on concrete boards. *)
Definition ascii_lower (c : ascii) : ascii :=
  let n := nat_of_ascii c in
  if ((65 <=? n)%nat && (n <=? 90)%nat)%bool then ascii_of_nat (n + 32) else c.

Fixpoint map_string (f : ascii → ascii) (s : string) : string :=
  match s with
  | EmptyString => EmptyString
  | String c s' => String (f c) (map_string f s')
  end.

Definition is_space (c : ascii) : bool :=
  let n := nat_of_ascii c in
  ((9 <=? n)%nat && (n <=? 13)%nat)%bool || (n =? 32)%nat.

Fixpoint trimStart (s : string) : string :=
  match s with
  | EmptyString => EmptyString
  | String c s' => if is_space c then trimStart s' else s
  end.

Fixpoint trimEnd (s : string) : string :=
  match s with
  | EmptyString => EmptyString
  | String c s' =>
      match trimEnd s' with
      | EmptyString => if is_space c then EmptyString else String c EmptyString
      | r => String c r
      end
  end.

Definition asciiStrings : HostStrings :=
  {| toLowerCase := map_string ascii_lower;
     trim := fun s => trimEnd (trimStart s) |}.

(** ** Filter: the [filteredTasks] memo *)

Section Filter.
Context `{HostStrings}.

(** The template literal
    [`${task.title} ${task.description ?? ""} ${task.tags?.join(" ") ?? ""}`]. *)
Definition searchText (task : Task) : string :=
  title task +:+ " " +:+ default "" (description task) +:+ " " +:+
  default "" (join " " <$> tags task).

Definition haystack (task : Task) : string := toLowerCase (searchText task).

(** The callback of [tasks.filter]; [false] is an early [return false]. *)
Definition filterCallback (filter normalizedSearch : string) (task : Task) : bool :=
  if bool_decide (filter ≠ "all") && bool_decide (status task ≠ filter)
     && (if bool_decide (filter = "high") && bool_decide (priority task ≠ "high")
         then true
         else bool_decide (filter ≠ "high"))
  then false
  else if bool_decide (normalizedSearch ≠ "")
          && negb (includes (haystack task) normalizedSearch)
  then false
  else true.

Definition filteredTasks (tasks : list Task) (filter searchTerm : string) : list Task :=
  let normalizedSearch := toLowerCase (trim searchTerm) in
  List.filter (filterCallback filter normalizedSearch) tasks.

End Filter.

(** ** Sort: [prioritizeTasks] *)

(** The numbers a comparator of the source can return. *)
Inductive Num :=
  | Fin (z : Z)
  | PosInf
  | NegInf
  | NaN.

(** JS subtraction [a - b]. *)
Definition sub (a b : Num) : Num :=
  match a, b with
  | Fin x, Fin y => Fin (x - y)
  | Fin _, PosInf => NegInf
  | Fin _, NegInf => PosInf
  | PosInf, Fin _ => PosInf
  | PosInf, NegInf => PosInf
  | NegInf, Fin _ => NegInf
  | NegInf, PosInf => NegInf
  | PosInf, PosInf => NaN
  | NegInf, NegInf => NaN
  | NaN, _ => NaN
  | _, NaN => NaN
  end.

(** [ToNumber] of a property read that may be [undefined]. *)
Definition toNumber (o : option Z) : Num :=
  match o with
  | Some z => Fin z
  | None => NaN
  end.

Section ArraySort.
Context {A : Type} (comparefn : A → A → Num).

(** ECMAScript's SortCompare turns a [NaN] answer into [+0]; [after x y]
    says the comparator puts [x] strictly behind [y]. *)
Definition after (x y : A) : bool :=
  match comparefn x y with
  | Fin v => 0 <? v
  | PosInf => true
  | NegInf => false
  | NaN => false
  end.

Fixpoint sort_insert (x : A) (l : list A) : list A :=
  match l with
  | [] => [x]
  | y :: l' => if after x y then y :: sort_insert x l' else x :: l
  end.

(** [Array.prototype.sort], which the language requires to be stable: an
    element moves behind exactly those it is strictly after.  For a
    comparator that is not a consistent ordering the language leaves the
    order to the engine, and this is one admissible outcome. *)
Fixpoint Array_sort (l : list A) : list A :=
  match l with
  | [] => []
  | x :: l' => sort_insert x (Array_sort l')
  end.

End ArraySort.

(** The object literal [weights]; any other key reads [undefined] (or an
    inherited member, which subtracts to [NaN] just the same). *)
Definition weights (p : string) : option Z :=
  if bool_decide (p = "high") then Some 3
  else if bool_decide (p = "medium") then Some 2
  else if bool_decide (p = "low") then Some 1
  else None.

(** The arrow function passed to [sort]. *)
Definition compareTasks (mode : string) (a b : Task) : Num :=
  if bool_decide (mode = "priority") then
    sub (toNumber (weights (priority b))) (toNumber (weights (priority a)))
  else if bool_decide (mode = "dueDate") then
    let aTime := match dueDate a with Some d => Fin d | None => PosInf end in
    let bTime := match dueDate b with Some d => Fin d | None => PosInf end in
    sub aTime bTime
  else
    sub (Fin (default 0 (createdAt b))) (Fin (default 0 (createdAt a))).

Definition prioritizeTasks (tasks : list Task) (mode : string) : list Task :=
  Array_sort (compareTasks mode) tasks.

(** The same function over a store of arrays, to speak about mutation:
    [[...tasks]] allocates a copy, [sort] reorders that copy in place. *)
Module Store.

Definition spread (r : nat) (h : gmap nat (list Task)) : option (nat * gmap nat (list Task)) :=
  l ← h !! r;
  let r' := fresh (dom h) in
  Some (r', <[r' := l]> h).

Definition sort (comparefn : Task → Task → Num) (r : nat) (h : gmap nat (list Task))
  : option (nat * gmap nat (list Task)) :=
  l ← h !! r;
  Some (r, <[r := Array_sort comparefn l]> h).

Definition prioritizeTasks (tasks : nat) (mode : string) (h : gmap nat (list Task))
  : option (nat * gmap nat (list Task)) :=
  '(copy, h') ← spread tasks h;
  sort (compareTasks mode) copy h'.

End Store.

(** ** Group: the [groupedTasks] memo *)

(** Names every object inherits from [Object.prototype]; reading one of
    them on the accumulator [{}] yields a function (or the prototype
    itself), never [undefined]. *)
Definition OBJECT_PROTOTYPE_KEYS : list string :=
  ["constructor"; "__defineGetter__"; "__defineSetter__"; "hasOwnProperty";
   "__lookupGetter__"; "__lookupSetter__"; "isPrototypeOf";
   "propertyIsEnumerable"; "toString"; "valueOf"; "__proto__";
   "toLocaleString"].

(** One step of the reducer.  [None] is the [TypeError] of calling [push]
    on an inherited member. *)
Definition groupStep (acc : gmap string (list Task)) (task : Task)
  : option (gmap string (list Task)) :=
  match acc !! status task with
  | Some bucket => Some (<[status task := bucket ++ [task]]> acc)
  | None =>
      if bool_decide (status task ∈ OBJECT_PROTOTYPE_KEYS) then None
      else Some (<[status task := [task]]> acc)
  end.

(** [array.reduce(f, init)] for a callback that may throw. *)
Fixpoint reduce {A B : Type} (f : B → A → option B) (l : list A) (acc : B) : option B :=
  match l with
  | [] => Some acc
  | x :: l' => acc' ← f acc x; reduce f l' acc'
  end.

Definition groupTasks (sorted : list Task) : option (gmap string (list Task)) :=
  reduce groupStep sorted ∅.

Definition groupedTasks `{HostStrings} (tasks : list Task) (filter searchTerm sortMode : string)
  : option (gmap string (list Task)) :=
  groupTasks (prioritizeTasks (filteredTasks tasks filter searchTerm) sortMode).

(** What a board column receives: [groupedTasks[status] ?? []]. *)
Definition column (grouped : gmap string (list Task)) (status : string) : list Task :=
  default [] (grouped !! status).

(** ** State updaters *)

Definition handleToggleComplete (taskId : string) (now : Z) (current : list Task) : list Task :=
  map (fun task =>
         if bool_decide (id task ≠ taskId) then task
         else
           let isDone := bool_decide (status task = "completed") in
           {| id := id task;
              title := title task;
              description := description task;
              dueDate := dueDate task;
              status := if isDone then "today" else "completed";
              priority := priority task;
              tags := tags task;
              createdAt := createdAt task;
              completedAt := if isDone then None else Some now |})
      current.

Definition handleStatusChange (taskId nextStatus : string) (current : list Task) : list Task :=
  map (fun task =>
         if bool_decide (id task = taskId) then
           {| id := id task;
              title := title task;
              description := description task;
              dueDate := dueDate task;
              status := nextStatus;
              priority := priority task;
              tags := tags task;
              createdAt := createdAt task;
              completedAt := completedAt task |}
         else task)
      current.

Definition handleDeleteTask (taskId : string) (current : list Task) : list Task :=
  List.filter (fun task => bool_decide (id task ≠ taskId)) current.

(** ** Metrics: [calculateMetrics] and its helpers *)

Definition MS_PER_DAY : Z := 1000 * 60 * 60 * 24.

(** The local time zone, as far as the source uses it: the calendar day an
    instant falls on (days numbered consecutively) and the instant of
    local midnight that starts a day. *)
Class Calendar := {
  dayIndex : Z → Z;
  dayStart : Z → Z;
}.

(** A zone at a fixed offset from UTC ([offset] in milliseconds). *)
Definition fixedOffset (offset : Z) : Calendar :=
  {| dayIndex := fun t => (t + offset) / MS_PER_DAY;
     dayStart := fun n => n * MS_PER_DAY - offset |}.

Record FocusArea := mkFocusArea {
  focus_title : string;
  focus_body : string;
}.

Record StatusRow := mkStatusRow {
  row_status : string;
  row_count : nat;
  row_percentage : Z;
}.

Record Metrics := mkMetrics {
  completionRate : Q;
  highPriority : nat;
  dueSoon : nat;
  activeCount : nat;
  streak : nat;
  momentumComment : string;
  byStatus : list StatusRow;
  focusArea : FocusArea;
}.

Definition CELEBRATE : FocusArea :=
  {| focus_title := "Celebrate & optimize";
     focus_body := "Completion is above 80%. Look for light refactors, share updates, and tee up tomorrow‚Äôs wins." |}.

Definition DEADLINES : FocusArea :=
  {| focus_title := "Tackle upcoming deadlines";
     focus_body := "Several tasks land within the next three days. Block focus time or reassign where needed." |}.

Definition STREAMLINE : FocusArea :=
  {| focus_title := "Streamline the workload";
     focus_body := "There‚Äôs a lot in play. Prioritize the top three outcomes and nudge the rest to backlog or delegate." |}.

Definition HABIT : FocusArea :=
  {| focus_title := "Build the habit";
     focus_body := "Light load today. Claim a quick win and set stretch goals for the week." |}.

(** [Math.ceil] and [Math.round] (halves round up) on exact quotients. *)
Definition Math_ceil (x : Q) : Z := Qceiling x.
Definition Math_round (x : Q) : Z := Qfloor (x + (1 # 2)).

(** The quotient [a / b] of two array lengths.  [None] is the [NaN] or
    infinity of a division by 0, which is no rational. *)
Definition divide (a b : nat) : option Q :=
  if bool_decide (b = 0%nat) then None
  else Some (inject_Z (Z.of_nat a) / inject_Z (Z.of_nat b))%Q.

(** IEEE 754 binary64 numbers and their correctly rounded operations. *)
Definition double_of_nat (n : nat) : SpecFloat.spec_float :=
  SpecFloat.binary_normalize 53 1024 (Z.of_nat n) 0 false.

Definition double_div (x y : SpecFloat.spec_float) : SpecFloat.spec_float :=
  SpecFloat.SFdiv 53 1024 x y.

Definition double_mul (x y : SpecFloat.spec_float) : SpecFloat.spec_float :=
  SpecFloat.SFmul 53 1024 x y.

(** [Math.round] of a double: the nearest integer, halves up, taken on the
    exact value [m * 2^e] of the double.  The source applies it to finite
    numbers only; for [NaN] and the infinities, which it would return
    unchanged, this gives 0. *)
Definition Math_round_double (x : SpecFloat.spec_float) : Z :=
  match x with
  | SpecFloat.S754_finite s m e =>
      let v := if s then Z.neg m else Z.pos m in
      if 0 <=? e then v * 2 ^ e else (2 * v + 2 ^ (- e)) / 2 ^ (- e + 1)
  | _ => 0
  end.

Definition determineFocusArea (completionRate : Q) (activeCount dueSoon : nat) : FocusArea :=
  if Qle_bool (8 # 10) completionRate then CELEBRATE
  else if Z.max 2 (Math_ceil (inject_Z (Z.of_nat activeCount) * (4 # 10))) <=? Z.of_nat dueSoon
  then DEADLINES
  else if (6 <=? activeCount)%nat then STREAMLINE
  else HABIT.

(** The callback of [active.filter] that counts towards [dueSoon]. *)
Definition dueSoonCallback (now : Z) (task : Task) : bool :=
  match dueDate task with
  | None => false
  | Some due =>
      let diffDays := (inject_Z (due - now) / inject_Z MS_PER_DAY)%Q in
      Qle_bool 0 diffDays && Qle_bool diffDays 3
  end.

Section Streak.
Context `{Calendar}.

(** [date.setHours(0, 0, 0, 0)] *)
Definition setHours0 (t : Z) : Z := dayStart (dayIndex t).

(** [date.setDate(date.getDate() - k)]: the same time of day, [k] calendar
    days earlier. *)
Definition setDateBack (t : Z) (k : Z) : Z :=
  dayStart (dayIndex t - k) + (t - dayStart (dayIndex t)).

(** The callback of [completedTasks.map].  [None] is the [RangeError] that
    [toISOString] raises on the invalid date [new Date(undefined)].  An
    ISO string stands for its instant. *)
Definition completionDay (task : Task) : option Z :=
  let date :=
    if truthy_num (completedAt task) then completedAt task
    else match dueDate task with
         | Some due => Some due
         | None => createdAt task
         end in
  setHours0 <$> date.

(** The [for] loop, with [n] iterations left. *)
Fixpoint streakLoop (days : gset Z) (today : Z) (n : nat) (index : Z) (streak : nat) : nat :=
  match n with
  | O => streak
  | S n' =>
      let cursor := setDateBack today index in
      if bool_decide (cursor ∈ days) then streakLoop days today n' (index + 1) (S streak)
      else streak
  end.

Definition calculateStreak (now : Z) (completedTasks : list Task) : option nat :=
  if bool_decide (length completedTasks = 0%nat) then Some 0%nat
  else
    isoDays ← mapM completionDay completedTasks;
    let days : gset Z := list_to_set isoDays in
    let today := setHours0 now in
    Some (streakLoop days today 10 0 0).

(** [None]: no report is returned, because [calculateStreak] threw, or
    the report would hold a quotient that is not a number. *)
Definition calculateMetrics (now : Z) (tasks : list Task) : option Metrics :=
  let total := if bool_decide (length tasks = 0%nat) then 1%nat else length tasks in
  let completed := List.filter (fun task => bool_decide (status task = "completed")) tasks in
  let active := List.filter (fun task => bool_decide (status task ≠ "completed")) tasks in
  completionRate ← divide (length completed) total;
  let dueSoon := length (List.filter (dueSoonCallback now) active) in
  let highPriority :=
    length (List.filter (fun task => bool_decide (priority task = "high")) active) in
  streak ← calculateStreak now completed;
  let byStatus :=
    map (fun status' =>
           let count :=
             length (List.filter (fun task => bool_decide (status task = status')) tasks) in
           {| row_status := status';
              row_count := count;
              row_percentage :=
                if bool_decide (total = 0%nat) then 0
                else
                  Math_round_double
                    (double_mul (double_div (double_of_nat count) (double_of_nat total))
                       (double_of_nat 100)) |})
        STATUS_KEYS in
  let focusArea := determineFocusArea completionRate (length active) dueSoon in
  let momentumComment :=
    if Qle_bool (8 # 10) completionRate then "Momentum high ‚Äî keep stacking wins!"
    else if Qle_bool (5 # 10) completionRate then "Solid pace. What‚Äôs the next domino?"
    else "Plot your next move and reclaim the day." in
  Some {| completionRate := completionRate;
          highPriority := highPriority;
          dueSoon := dueSoon;
          activeCount := length active;
          streak := streak;
          momentumComment := momentumComment;
          byStatus := byStatus;
          focusArea := focusArea |}.

End Streak.

(** ** Task creation and the derived lists of the side panel *)

(** The object [QuickAdd] hands to [handleCreateTask]. *)
Module Payload.

Record t := mk {
  title : string;
  description : string;
  dueDate : option Z;
  status : option string;
  priority : option string;
  tags : option (list string);
}.

End Payload.

(** [newId] is the value of the template literal built from the clock
    and [Math.random()]; [current] is returned as it is when the early
    [return] skips [setTasks]. *)
Definition handleCreateTask `{HostStrings}
    (payload : Payload.t) (newId : string) (now : Z) (current : list Task) : list Task :=
  if bool_decide (trim (Payload.title payload) = "") then current
  else
    let newTask :=
      {| id := newId;
         title := trim (Payload.title payload);
         description :=
           (let d := trim (Payload.description payload) in
            if bool_decide (d = "") then None else Some d);
         dueDate := Payload.dueDate payload;
         status := default "today" (Payload.status payload);
         priority := default "medium" (Payload.priority payload);
         tags := Payload.tags payload;
         createdAt := Some now;
         completedAt := None |} in
    newTask :: current.

(** The [focusTasks] memo; [slice(0, 3)] keeps the first three. *)
Definition focusTasks (tasks : list Task) : list Task :=
  let soonest := List.filter (fun task => bool_decide (status task ≠ "completed")) tasks in
  let prioritized := prioritizeTasks soonest "dueDate" in
  take 3 prioritized.

(** The [completedRecently] memo. *)
Definition completedRecently (tasks : list Task) : list Task :=
  let done := List.filter (fun task => bool_decide (status task = "completed")) tasks in
  take 4 (prioritizeTasks done "createdAt").

(** The [themeVariant] memo, on [metrics.completionRate]. *)
Definition themeVariant (completionRate : Q) : string :=
  if Qle_bool (85 # 100) completionRate then "celebrate"
  else if Qle_bool (5 # 10) completionRate then "momentum"
  else "plan".

(** ** Date helpers *)

(** The locale-dependent rendering [date.toLocaleDateString(undefined,
    {weekday, month, day})]. *)
Class HostDates := {
  toLocaleDateString : Z → string;
}.

(** The instant of 12:00 local time on a day. *)
Class LocalNoon := {
  dayNoon : Z → Z;
}.

(** Noon in a zone at a fixed offset from UTC. *)
Definition fixedNoon (offset : Z) : LocalNoon :=
  {| dayNoon := fun n => n * MS_PER_DAY + 12 * (1000 * 60 * 60) - offset |}.

Section Dates.
Context `{Calendar} `{LocalNoon} `{HostDates}.

(** [date.setHours(12, 0, 0, 0)] *)
Definition setHours12 (t : Z) : Z := dayNoon (dayIndex t).

(** [addDays(base, days)]; the ISO string it returns stands for its
    instant. *)
Definition addDays (base days : Z) : Z :=
  let date := base in
  let date := setDateBack date (- days) in
  setHours12 date.

(** [formatDueDate(input)], with the clock as an argument.  The number in
    the template is printed in decimal.  The day count is rounded on the
    exact quotient, which agrees with the rounding of the double for
    dates within tens of thousands of years of today. *)
Definition formatDueDate (now : Z) (input : option Z) : string :=
  match input with
  | None => "No deadline"
  | Some date =>
      let today := setHours0 now in
      let diffDays := Math_round (inject_Z (date - today) / inject_Z MS_PER_DAY)%Q in
      if diffDays =? 0 then "Due today"
      else if diffDays =? 1 then "Due tomorrow"
      else if diffDays <? 0 then
        "Overdue by " +:+ pretty (Z.abs diffDays) +:+ " day"
        +:+ (if Z.abs diffDays =? 1 then "" else "s")
      else toLocaleDateString date
  end.

(** [isOverdue] of [TaskCard]: [dueLabel.startsWith("Overdue")]. *)
Definition isOverdue (now : Z) (input : option Z) : bool :=
  startsWith "Overdue" (formatDueDate now input).

End Dates.

(** [timeSince(timestamp)], with the clock as an argument.  The three
    quotients are rounded exactly: each is a multiple of 1/60000, 1/60
    or 1/24, so it is either on a half or far from one. *)
Definition timeSince (now : Z) (timestamp : option Z) : string :=
  if negb (truthy_num timestamp) then "moments"
  else
    let diff := now - default 0 timestamp in
    let minutes := Math_round (inject_Z diff / inject_Z (1000 * 60))%Q in
    if minutes <? 60 then pretty minutes +:+ " min"
    else
      let hours := Math_round (inject_Z minutes / 60)%Q in
      if hours <? 24 then pretty hours +:+ " hr"
      else
        let days := Math_round (inject_Z hours / 24)%Q in
        pretty days +:+ " day" +:+ (if days =? 1 then "" else "s").

(** ** The board as a state machine *)

(** A user action, with the arguments the handler receives. *)
Inductive Action :=
  | Create (payload : Payload.t) (newId : string)
  | Toggle (taskId : string)
  | Move (taskId nextStatus : string)
  | Delete (taskId : string).

(** The state update an action causes when the clock reads [now]. *)
Definition dispatch `{HostStrings} (action : Action) (now : Z) (current : list Task)
  : list Task :=
  match action with
  | Create payload newId => handleCreateTask payload newId now current
  | Toggle taskId => handleToggleComplete taskId now current
  | Move taskId nextStatus => handleStatusChange taskId nextStatus current
  | Delete taskId => handleDeleteTask taskId current
  end.

(** A sequence of actions, each with the clock reading at its time. *)
Fixpoint run `{HostStrings} (script : list (Action * Z)) (current : list Task) : list Task :=
  match script with
  | [] => current
  | (action, now) :: rest => run rest (dispatch action now current)
  end.

(** ** Vocabulary of the statements *)

(** [n] occurs in [h] as a contiguous substring. *)
Definition occurs (n h : string) : Prop := ∃ p s, h = p +:+ n +:+ s.

(** The filter criterion accepts a task. *)
Definition criterionMatches (criterion : string) (task : Task) : Prop :=
  criterion = "all"
  ∨ (criterion = "high" ∧ priority task = "high")
  ∨ (criterion ∈ STATUS_KEYS ∧ status task = criterion).

(** The search term accepts a task. *)
Definition searchMatches `{HostStrings} (searchTerm : string) (task : Task) : Prop :=
  toLowerCase (trim searchTerm) = ""
  ∨ occurs (toLowerCase (trim searchTerm)) (toLowerCase (searchText task)).

(** The key a mode sorts by.  In mode "dueDate" [None] is the key of a
    task without due date (positive infinity); in mode "priority" it is
    the key of a priority outside the weight table. *)
Definition sortKey (mode : string) (task : Task) : option Z :=
  if bool_decide (mode = "priority") then weights (priority task)
  else if bool_decide (mode = "dueDate") then dueDate task
  else Some (default 0 (createdAt task)).

(** Instants extended by positive infinity ([None]), in ascending order. *)
Definition leInfinity (a b : option Z) : Prop :=
  match a, b with
  | _, None => True
  | None, Some _ => False
  | Some x, Some y => x ≤ y
  end.

(** [a] may stand before [b] in the output of mode [mode]. *)
Definition inOrder (mode : string) (a b : Task) : Prop :=
  if bool_decide (mode = "priority") then
    default 0 (sortKey mode b) ≤ default 0 (sortKey mode a)
  else if bool_decide (mode = "dueDate") then
    leInfinity (sortKey mode a) (sortKey mode b)
  else
    default 0 (sortKey mode b) ≤ default 0 (sortKey mode a).

(** The tasks of [l] whose key is [k], in the order of [l]. *)
Definition withKey (mode : string) (k : option Z) (l : list Task) : list Task :=
  List.filter (fun task => bool_decide (sortKey mode task = k)) l.

(** The tasks of [l] whose status is [k], in the order of [l]. *)
Definition tasksWithStatus (k : string) (l : list Task) : list Task :=
  List.filter (fun task => bool_decide (status task = k)) l.

(** A bucket after more tasks of its status have been pushed. *)
Definition extendBucket (bucket : option (list Task)) (more : list Task)
  : option (list Task) :=
  match bucket, more with
  | Some b, _ => Some (b ++ more)
  | None, [] => None
  | None, _ :: _ => Some more
  end.

(** Two tasks agree on every field but [status]. *)
Definition sameButStatus (a b : Task) : Prop :=
  id a = id b ∧ title a = title b ∧ description a = description b
  ∧ dueDate a = dueDate b ∧ priority a = priority b ∧ tags a = tags b
  ∧ createdAt a = createdAt b ∧ completedAt a = completedAt b.

(** Two tasks agree on every field but [status] and [completedAt]. *)
Definition sameButCompletion (a b : Task) : Prop :=
  id a = id b ∧ title a = title b ∧ description a = description b
  ∧ dueDate a = dueDate b ∧ priority a = priority b ∧ tags a = tags b
  ∧ createdAt a = createdAt b.

(** What the statements assume of a time zone: later instants fall on
    later (or the same) days, and local midnight of a day falls on that
    day. *)
Class CalendarLaws (cal : Calendar) : Prop := {
  dayIndex_mono : ∀ s t, s ≤ t → dayIndex s ≤ dayIndex t;
  dayIndex_dayStart : ∀ n, dayIndex (dayStart n) = n;
}.

(** The instant a completed task counts for in the streak: [completedAt]
    if present, else [dueDate] if present, else [createdAt]. *)
Definition completionInstant (task : Task) : option Z :=
  match completedAt task with
  | Some c => Some c
  | None =>
      match dueDate task with
      | Some due => Some due
      | None => createdAt task
      end
  end.

(** The calendar days on which the completed tasks of a collection count. *)
Definition completedDays `{Calendar} (tasks : list Task) : list Z :=
  omap (fun task => dayIndex <$> completionInstant task)
       (tasksWithStatus "completed" tasks).

(** A completed task is well dated when it has an instant to count for,
    and its [completedAt], if present, is not the number 0. *)
Definition wellDated (task : Task) : Prop :=
  status task = "completed" →
  completedAt task ≠ Some 0 ∧ is_Some (completionInstant task).

(** An active task whose due instant lies in [now, now + 3 days]. *)
Definition dueWithinWindow (now : Z) (task : Task) : bool :=
  bool_decide (status task ≠ "completed")
  && match dueDate task with
     | Some due => (now <=? due) && (due <=? now + 3 * MS_PER_DAY)
     | None => false
     end.

(** A task as the handlers make and keep them: created with a creation
    instant, and never completed at the number 0. *)
Definition sane (task : Task) : Prop :=
  is_Some (createdAt task) ∧ completedAt task ≠ Some 0.

(** The quotient [x / d] rounded to the nearest integer, halves up. *)
Definition roundDiv (x d : Z) : Z := (2 * x + d) / (2 * d).

(** The three momentum comments of the report, best first. *)
Definition MOMENTUM_HIGH : string := "Momentum high ‚Äî keep stacking wins!".
Definition MOMENTUM_SOLID : string := "Solid pace. What‚Äôs the next domino?".
Definition MOMENTUM_LOW : string := "Plot your next move and reclaim the day.".

(** ** Sample board *)

Module Sample.

Definition day (n : Z) : Z := n * MS_PER_DAY.

(** The three tasks of the sorting scenario, with "now" at instant 0. *)
Definition A : Task :=
  {| id := "a"; title := "Ship release"; description := None;
     dueDate := Some (day 5); status := "today"; priority := "high";
     tags := Some ["Ops"; "Team"]; createdAt := Some 30; completedAt := None |}.

Definition B : Task :=
  {| id := "b"; title := "Water plants"; description := Some "Back office";
     dueDate := Some (day 1); status := "upcoming"; priority := "low";
     tags := None; createdAt := Some 20; completedAt := None |}.

Definition C : Task :=
  {| id := "c"; title := "Review notes"; description := None;
     dueDate := Some (day 2); status := "backlog"; priority := "medium";
     tags := Some []; createdAt := Some 10; completedAt := None |}.

(** A second high-priority task, tied with [A] in mode "priority". *)
Definition A2 : Task :=
  {| id := "a2"; title := "Call vendor"; description := None;
     dueDate := None; status := "today"; priority := "high";
     tags := None; createdAt := None; completedAt := None |}.

(** A task whose status is none of the four columns. *)
Definition archived : Task :=
  {| id := "x"; title := "Old idea"; description := None;
     dueDate := None; status := "archived"; priority := "low";
     tags := None; createdAt := Some 5; completedAt := None |}.

(** A finished task, completed at [at_]. *)
Definition done (name : string) (at_ : Z) : Task :=
  {| id := name; title := name; description := None;
     dueDate := None; status := "completed"; priority := "medium";
     tags := None; createdAt := Some 1; completedAt := Some at_ |}.

(** 12:00 and 15:00 UTC on 2024-05-10, and a task due at that noon. *)
Definition noon : Z := 1715342400000.
Definition afternoon : Z := 1715353200000.

Definition dueAtNoon : Task :=
  {| id := "kickoff"; title := "Sprint planning"; description := None;
     dueDate := Some noon; status := "today"; priority := "high";
     tags := None; createdAt := Some (noon - day 1); completedAt := None |}.

(** Finished work on each of the last three days, none on the fourth day
    back, and some on the fifth. *)
Definition threeDayRun : list Task :=
  [done "d0" (afternoon - 1000); done "d1" (afternoon - day 1);
   dueAtNoon; done "d2" (noon - day 2); done "d4" (noon - day 4)].

End Sample.

(** ** More sample values *)

Module Demo.

(** A host whose date strings all read the same. *)
Definition plainDates : HostDates :=
  {| toLocaleDateString := fun _ => "Fri, May 10" |}.

(** What [QuickAdd] submits for a task typed with spaces around it. *)
Definition payload : Payload.t :=
  {| Payload.title := "  Book venue ";
     Payload.description := "   ";
     Payload.dueDate := None;
     Payload.status := Some "completed";
     Payload.priority := None;
     Payload.tags := None |}.

(** A board as the handlers make it. *)
Definition board : list Task := [Sample.A; Sample.B; Sample.C].

(** A morning of work: create a task, finish one, move one, remove one. *)
Definition script : list (Action * Z) :=
  [(Create payload "n1", 100); (Toggle "a", 200);
   (Move "b" "completed", 300); (Delete "c", 400)].

End Demo.

(** * Properties *)

(** ** Strings *)

Lemma append_String c (s t : string) : String c s +:+ t = String c (s +:+ t).
Proof. reflexivity. Qed.

Lemma append_empty (t : string) : "" +:+ t = t.
Proof. reflexivity. Qed.

Lemma startsWith_spec n h : startsWith n h = true ↔ ∃ s, h = n +:+ s.
Proof.
  revert h. induction n as [|a n IH]; intros h; simpl.
  - split; [intros _; by exists h | done].
  - destruct h as [|b h].
    + split; [done | intros [s Hs]; discriminate].
    + setoid_rewrite append_String.
      destruct (Ascii.eqb_spec a b) as [->|Hab].
      * rewrite IH. split; intros [s Hs]; exists s; congruence.
      * split; [done | intros [s Hs]; congruence].
Qed.

Lemma includes_spec h n : includes h n = true ↔ occurs n h.
Proof.
  unfold occurs. induction h as [|c h IH].
  - simpl. rewrite orb_false_r, startsWith_spec. split.
    + intros [s Hs]. by exists "", s.
    + intros [[|? p] [s Hs]]; [by exists s | discriminate].
  - cbn [includes]. rewrite orb_true_iff, startsWith_spec, IH. split.
    + intros [[s Hs] | (p & s & Hs)].
      * by exists "", s.
      * exists (String c p), s. by rewrite append_String, Hs.
    + intros ([|c' p] & s & Hs).
      * left. by exists s.
      * right. exists p, s. rewrite append_String in Hs. congruence.
Qed.

(** ** Filter *)

Lemma filterCallback_spec `{HostStrings} filter searchTerm task :
  known_status task →
  filterCallback filter (toLowerCase (trim searchTerm)) task = true
  ↔ criterionMatches filter task ∧ searchMatches searchTerm task.
Proof.
  intros Hst. unfold filterCallback, criterionMatches, searchMatches, haystack.
  set (ns := toLowerCase (trim searchTerm)).
  rewrite <- includes_spec.
  assert (Hhigh : status task ≠ "high").
  { intros E. unfold known_status in Hst. rewrite E in Hst.
    apply list_elem_of_In in Hst. simpl in Hst. intuition discriminate. }
  unfold known_status in Hst.
  destruct (decide (filter = "all")) as [Hall|Hall],
           (decide (status task = filter)) as [Hsf|Hsf],
           (decide (filter = "high")) as [Hfh|Hfh],
           (decide (priority task = "high")) as [Hph|Hph],
           (decide (ns = "")) as [Hns|Hns];
    repeat first [ rewrite bool_decide_eq_true_2 by assumption
                 | rewrite bool_decide_eq_false_2 by (intros ?; contradiction)
                 | rewrite bool_decide_eq_false_2 by assumption
                 | rewrite bool_decide_eq_true_2 by (intros ?; contradiction) ];
    simpl;
    try destruct (includes (toLowerCase (searchText task)) ns); simpl;
    intuition (subst; auto; try congruence; try discriminate).
Qed.

Lemma join_concat (sep : string) (parts : list string) :
  join sep parts = String.concat sep parts.
Proof.
  induction parts as [|p rest IH]; [done|].
  destruct rest as [|q rest]; [done|].
  cbn [join String.concat] in *. by rewrite IH.
Qed.

Lemma searchText_spelled (task : Task) :
  searchText task
  = title task +:+ " " +:+ default "" (description task) +:+ " "
    +:+ match tags task with
        | Some ts => String.concat " " ts
        | None => ""
        end.
Proof.
  unfold searchText. destruct (tags task) as [ts|]; simpl; [|done].
  by rewrite join_concat.
Qed.

(** C3.  Under the assumption that every task carries one of the four
    known statuses, a task is in the filter output exactly when it is in
    the input, the criterion accepts it ("all"; or "high" with high
    priority; or one of the four status values equal to the task's
    status) and the search term accepts it: the trimmed, lower-cased
    term is empty, or it occurs as a substring of the lower-cased text
    made of the title, a space, the description (nothing if absent), a
    space, and the tags joined by single spaces (nothing if absent). *)
Theorem filteredTasks_membership `{HostStrings}
    (tasks : list Task) (criterion searchTerm : string) (task : Task) :
  Forall known_status tasks →
  task ∈ filteredTasks tasks criterion searchTerm
  ↔ task ∈ tasks
    ∧ (criterion = "all"
       ∨ (criterion = "high" ∧ priority task = "high")
       ∨ (criterion ∈ ["today"; "upcoming"; "backlog"; "completed"]
          ∧ status task = criterion))
    ∧ (toLowerCase (trim searchTerm) = ""
       ∨ ∃ before after,
           toLowerCase
             (title task +:+ " "
              +:+ match description task with Some d => d | None => "" end
              +:+ " "
              +:+ match tags task with
                  | Some ts => String.concat " " ts
                  | None => ""
                  end)
           = before +:+ toLowerCase (trim searchTerm) +:+ after).
Proof.
  intros Hknown. unfold filteredTasks.
  rewrite !list_elem_of_In, filter_In, <- !list_elem_of_In.
  assert (Hspec : task ∈ tasks →
            (filterCallback criterion (toLowerCase (trim searchTerm)) task = true
             ↔ criterionMatches criterion task ∧ searchMatches searchTerm task)).
  { intros Hin. apply filterCallback_spec. by eapply Forall_forall in Hknown. }
  assert (Htext : searchMatches searchTerm task
            ↔ toLowerCase (trim searchTerm) = ""
              ∨ ∃ before after,
                  toLowerCase
                    (title task +:+ " "
                     +:+ match description task with Some d => d | None => "" end
                     +:+ " "
                     +:+ match tags task with
                         | Some ts => String.concat " " ts
                         | None => ""
                         end)
                  = before +:+ toLowerCase (trim searchTerm) +:+ after).
  { unfold searchMatches, occurs. rewrite searchText_spelled.
    by destruct (description task). }
  unfold criterionMatches, STATUS_KEYS in Hspec. rewrite <- Htext.
  split.
  - intros [Hin Hcb]. split; [done|]. by apply Hspec.
  - intros [Hin Hm]. split; [done|]. by apply Hspec.
Qed.

(** ** Sort *)

Section ArraySortFacts.
Context {A : Type} (comparefn : A → A → Num).

Lemma sort_insert_perm x l : sort_insert comparefn x l ≡ₚ x :: l.
Proof.
  induction l as [|y l IH]; simpl; [done|].
  destruct (after comparefn x y); [|done].
  rewrite IH. apply Permutation_swap.
Qed.

Lemma Array_sort_perm l : Array_sort comparefn l ≡ₚ l.
Proof.
  induction l as [|x l IH]; simpl; [done|].
  by rewrite sort_insert_perm, IH.
Qed.

(** Sortedness, for a comparator that agrees with a transitive relation
    [R] on the elements satisfying [P]. *)
Section Sorted.
Context (R : relation A) (P : A → Prop).
Context (R_trans : Transitive R).
Context (R_before : ∀ x y, P x → P y → after comparefn x y = false → R x y).
Context (R_behind : ∀ x y, P x → P y → after comparefn x y = true → R y x).

Lemma sort_insert_sorted x l :
  P x → Forall P l → StronglySorted R l → StronglySorted R (sort_insert comparefn x l).
Proof.
  intros Px Pl Hs. induction Hs as [|y l Hs IH Hy]; simpl.
  - repeat constructor.
  - apply Forall_cons in Pl as [Py Pl].
    destruct (after comparefn x y) eqn:E.
    + constructor; [by apply IH|].
      rewrite sort_insert_perm. constructor; [by apply R_behind | done].
    + constructor; [by constructor|].
      constructor; [by apply R_before|].
      eapply Forall_impl; [exact Hy|]. intros z Hz.
      transitivity y; [by apply R_before | done].
Qed.

Lemma Array_sort_sorted l : Forall P l → StronglySorted R (Array_sort comparefn l).
Proof.
  induction l as [|x l IH]; simpl; intros Pl; [constructor|].
  apply Forall_cons in Pl as [Px Pl].
  apply sort_insert_sorted; [done | by rewrite Array_sort_perm | by apply IH].
Qed.

End Sorted.

(** Stability: a class of elements none of which is strictly behind
    another keeps its order. *)
Section Stable.
Context (c : A → bool).
Context (c_tied : ∀ x y, c x = true → c y = true → after comparefn x y = false).

Lemma sort_insert_stable x l :
  List.filter c (sort_insert comparefn x l) = List.filter c (x :: l).
Proof.
  induction l as [|y l IH]; [done|].
  cbn [sort_insert]. destruct (after comparefn x y) eqn:E; [|done].
  cbn [List.filter] in *. rewrite IH.
  destruct (c x) eqn:Cx, (c y) eqn:Cy; try done.
  by rewrite c_tied in E.
Qed.

Lemma Array_sort_stable l : List.filter c (Array_sort comparefn l) = List.filter c l.
Proof.
  induction l as [|x l IH]; [done|].
  cbn [Array_sort]. rewrite sort_insert_stable. cbn [List.filter]. by rewrite IH.
Qed.

End Stable.
End ArraySortFacts.

Lemma known_priority_weight task :
  known_priority task → ∃ w, weights (priority task) = Some w ∧ 1 ≤ w ≤ 3.
Proof.
  unfold known_priority. intros Hp.
  apply list_elem_of_In in Hp. simpl in Hp.
  destruct Hp as [<-|[<-|[<-|[]]]]; eexists; (split; [reflexivity | lia]).
Qed.

Lemma leInfinity_trans : Transitive leInfinity.
Proof.
  intros [x|] [y|] [z|]; simpl; try done. lia.
Qed.

Lemma inOrder_trans mode : Transitive (inOrder mode).
Proof.
  intros x y z. unfold inOrder.
  repeat case_bool_decide; try lia. apply leInfinity_trans.
Qed.

(** The comparator decides [inOrder]; in mode "priority" this needs both
    priorities to be in the weight table. *)
Lemma compareTasks_before mode x y :
  (mode = "priority" → known_priority x) →
  (mode = "priority" → known_priority y) →
  after (compareTasks mode) x y = false → inOrder mode x y.
Proof.
  intros Hx Hy. unfold after, compareTasks, inOrder, sortKey.
  repeat case_bool_decide.
  - destruct (known_priority_weight x) as (wx & -> & _); [auto|].
    destruct (known_priority_weight y) as (wy & -> & _); [auto|].
    simpl. intros ?%Z.ltb_ge. lia.
  - destruct (dueDate x), (dueDate y); simpl; try done.
    intros ?%Z.ltb_ge. lia.
  - simpl. intros ?%Z.ltb_ge. lia.
Qed.

Lemma compareTasks_behind mode x y :
  (mode = "priority" → known_priority x) →
  (mode = "priority" → known_priority y) →
  after (compareTasks mode) x y = true → inOrder mode y x.
Proof.
  intros Hx Hy. unfold after, compareTasks, inOrder, sortKey.
  repeat case_bool_decide.
  - destruct (known_priority_weight x) as (wx & -> & _); [auto|].
    destruct (known_priority_weight y) as (wy & -> & _); [auto|].
    simpl. intros ?%Z.ltb_lt. lia.
  - destruct (dueDate x), (dueDate y); simpl; try done.
    intros ?%Z.ltb_lt. lia.
  - simpl. intros ?%Z.ltb_lt. lia.
Qed.

(** Two tasks with the same key are never strictly behind one another. *)
Lemma compareTasks_tied mode x y :
  sortKey mode x = sortKey mode y → after (compareTasks mode) x y = false.
Proof.
  unfold after, compareTasks, sortKey.
  repeat case_bool_decide.
  - intros ->. destruct (weights (priority y)); simpl; [|done].
    apply Z.ltb_ge. lia.
  - intros ->. destruct (dueDate y); simpl; [|done].
    apply Z.ltb_ge. lia.
  - intros [= ->]. simpl. apply Z.ltb_ge. lia.
Qed.

Lemma Store_prioritizeTasks_spec (h : gmap nat (list Task)) r mode tasks :
  h !! r = Some tasks →
  ∃ copy,
    Store.prioritizeTasks r mode h = Some (copy, <[copy := prioritizeTasks tasks mode]> h)
    ∧ h !! copy = None.
Proof.
  intros Hr. exists (fresh (dom h)).
  assert (Hfresh : h !! fresh (dom h) = None).
  { apply not_elem_of_dom, is_fresh. }
  split; [|done].
  unfold Store.prioritizeTasks, Store.spread, Store.sort.
  rewrite Hr. simpl. rewrite lookup_insert_eq. simpl.
  by rewrite insert_insert_eq.
Qed.

(** C4.  [prioritizeTasks] orders by the key of the mode and leaves its
    argument alone.  The weight table is high=3, medium=2, low=1.  The
    output is a permutation of the input in which every task stands
    before every later one in the sense of [inOrder]: in mode "priority"
    by descending weight (for priorities of the table), in mode "dueDate"
    by ascending due instant with the tasks without due date last, in
    every other mode by descending creation instant with 0 for a missing
    one.  Run on an array of the store, it returns a freshly allocated
    array holding that output, and every array that was in the store
    before, the argument included, is unchanged. *)
Theorem prioritizeTasks_orders (tasks : list Task) (mode : string) :
  (mode = "priority" → Forall known_priority tasks) →
  (weights "high" = Some 3 ∧ weights "medium" = Some 2 ∧ weights "low" = Some 1)
  ∧ prioritizeTasks tasks mode ≡ₚ tasks
  ∧ StronglySorted (inOrder mode) (prioritizeTasks tasks mode)
  ∧ (∀ a b, inOrder "priority" a b
            ↔ default 0 (weights (priority b)) ≤ default 0 (weights (priority a)))
  ∧ (∀ a b, inOrder "dueDate" a b ↔ leInfinity (dueDate a) (dueDate b))
  ∧ (∀ a b, mode ≠ "priority" → mode ≠ "dueDate" →
            inOrder mode a b ↔ default 0 (createdAt b) ≤ default 0 (createdAt a))
  ∧ (∀ (h : gmap nat (list Task)) r, h !! r = Some tasks →
       ∃ copy h', Store.prioritizeTasks r mode h = Some (copy, h')
                  ∧ h' !! copy = Some (prioritizeTasks tasks mode)
                  ∧ ∀ r', is_Some (h !! r') → h' !! r' = h !! r').
Proof.
  intros Hknown. split; [done|].
  split; [apply Array_sort_perm|].
  split.
  { apply (Array_sort_sorted _ (inOrder mode) (fun t => mode = "priority" → known_priority t)).
    - apply inOrder_trans.
    - intros x y ??. by apply compareTasks_before.
    - intros x y ??. by apply compareTasks_behind.
    - apply Forall_forall. intros t Ht Hm.
      specialize (Hknown Hm). by eapply Forall_forall in Hknown. }
  split; [done|].
  split; [done|].
  split.
  { intros a b H1 H2. unfold inOrder, sortKey.
    rewrite !bool_decide_eq_false_2 by done. done. }
  intros h r Hr.
  destruct (Store_prioritizeTasks_spec h r mode tasks Hr) as (copy & Hrun & Hcopy).
  exists copy, (<[copy := prioritizeTasks tasks mode]> h).
  split; [done|]. split; [apply lookup_insert_eq|].
  intros r' [l Hl]. apply lookup_insert_ne. congruence.
Qed.

Lemma filter_sublist_mono {A : Type} (c : A → bool) (l1 l2 : list A) :
  sublist l1 l2 → sublist (List.filter c l1) (List.filter c l2).
Proof.
  induction 1 as [|x l1 l2 _ IH|x l1 l2 _ IH]; simpl.
  - constructor.
  - destruct (c x); [by constructor | done].
  - destruct (c x); [by constructor | done].
Qed.

Lemma filter_sublist {A : Type} (c : A → bool) (l : list A) :
  sublist (List.filter c l) l.
Proof.
  induction l as [|x l IH]; simpl; [constructor|].
  destruct (c x); by constructor.
Qed.

(** C5.  [prioritizeTasks] is stable in every mode: for each key, the
    tasks carrying that key appear in the output in the very order in
    which they appear in the input; so whenever [a] stands before [b] in
    the input and their keys are equal, [a] stands before [b] in the
    output.  (In mode "priority" the priorities are taken from the
    weight table.) *)
Theorem prioritizeTasks_stable (tasks : list Task) (mode : string) :
  (mode = "priority" → Forall known_priority tasks) →
  (∀ k, withKey mode k (prioritizeTasks tasks mode) = withKey mode k tasks)
  ∧ (∀ a b, sortKey mode a = sortKey mode b →
       sublist [a; b] tasks → sublist [a; b] (prioritizeTasks tasks mode)).
Proof.
  intros _.
  assert (Hkey : ∀ k, withKey mode k (prioritizeTasks tasks mode) = withKey mode k tasks).
  { intros k. unfold withKey, prioritizeTasks.
    apply Array_sort_stable.
    intros x y Hx%bool_decide_eq_true Hy%bool_decide_eq_true.
    apply compareTasks_tied. congruence. }
  split; [done|].
  intros a b Hab Hin.
  transitivity (withKey mode (sortKey mode a) (prioritizeTasks tasks mode));
    [|apply filter_sublist].
  rewrite Hkey.
  replace [a; b] with (withKey mode (sortKey mode a) [a; b]).
  - by apply filter_sublist_mono.
  - unfold withKey. simpl.
    rewrite !bool_decide_eq_true_2 by done. done.
Qed.

Example sort_scenario_priority :
  prioritizeTasks [Sample.A; Sample.B; Sample.C] "priority" = [Sample.A; Sample.C; Sample.B].
Proof. reflexivity. Qed.

Example sort_scenario_dueDate :
  prioritizeTasks [Sample.A; Sample.B; Sample.C] "dueDate" = [Sample.B; Sample.C; Sample.A].
Proof. reflexivity. Qed.

Example sort_scenario_ties :
  prioritizeTasks [Sample.B; Sample.A; Sample.C; Sample.A2] "priority"
  = [Sample.A; Sample.A2; Sample.C; Sample.B]
  ∧ prioritizeTasks [Sample.B; Sample.A2; Sample.C; Sample.A] "priority"
    = [Sample.A2; Sample.A; Sample.C; Sample.B].
Proof. split; reflexivity. Qed.

Example sort_scenario_no_dueDate_last :
  prioritizeTasks [Sample.A2; Sample.A; Sample.B] "dueDate" = [Sample.B; Sample.A; Sample.A2].
Proof. reflexivity. Qed.

Example sort_scenario_fallback :
  prioritizeTasks [Sample.B; Sample.C; Sample.A] "newest" = [Sample.A; Sample.B; Sample.C].
Proof. reflexivity. Qed.

(** ** Group *)

Lemma extendBucket_cons bucket task more :
  extendBucket bucket (task :: more)
  = extendBucket (Some (default [] bucket ++ [task])) more.
Proof.
  destruct bucket as [b|]; simpl; [|done].
  by rewrite <- app_assoc.
Qed.

Lemma reduce_groupStep (l : list Task) (acc : gmap string (list Task)) :
  Forall (fun t => status t ∉ OBJECT_PROTOTYPE_KEYS) l →
  ∃ grouped, reduce groupStep l acc = Some grouped
    ∧ ∀ k, grouped !! k = extendBucket (acc !! k) (tasksWithStatus k l).
Proof.
  revert acc. induction l as [|t l IH]; intros acc Hl.
  - exists acc. split; [done|]. intros k. simpl.
    destruct (acc !! k); simpl; by rewrite ?app_nil_r.
  - apply Forall_cons in Hl as [Ht Hl].
    set (acc' := <[status t := default [] (acc !! status t) ++ [t]]> acc).
    assert (Hstep : groupStep acc t = Some acc').
    { unfold groupStep, acc'. destruct (acc !! status t); [done|].
      by rewrite bool_decide_eq_false_2. }
    destruct (IH acc' Hl) as (grouped & Hrun & Hk).
    exists grouped. split.
    + cbn [reduce]. by rewrite Hstep.
    + intros k. rewrite Hk. unfold tasksWithStatus. cbn [List.filter].
      case_bool_decide as Hs.
      * subst k. unfold acc'. rewrite lookup_insert_eq.
        by rewrite extendBucket_cons.
      * unfold acc'. by rewrite lookup_insert_ne.
Qed.

Lemma groupTasks_lookup (sorted : list Task) :
  Forall (fun t => status t ∉ OBJECT_PROTOTYPE_KEYS) sorted →
  ∃ grouped, groupTasks sorted = Some grouped
    ∧ ∀ k, grouped !! k = extendBucket None (tasksWithStatus k sorted).
Proof.
  intros Hl. destruct (reduce_groupStep sorted ∅ Hl) as (grouped & Hrun & Hk).
  exists grouped. split; [done|]. intros k. by rewrite Hk, lookup_empty.
Qed.

Lemma elem_of_tasksWithStatus t k l :
  t ∈ tasksWithStatus k l ↔ t ∈ l ∧ status t = k.
Proof.
  unfold tasksWithStatus.
  by rewrite !list_elem_of_In, filter_In, bool_decide_eq_true.
Qed.

(** C2, as the code has it.  The reducer keys the mapping by whatever
    status a task carries: its keys are exactly the statuses that occur
    in the input, each bucket holds the tasks of that status in input
    order, and a task whose status is none of the four known values sits
    in the bucket of its own status and in none of the four known
    buckets.  (A status that names an inherited member of the accumulator
    object makes the reducer throw, and is excluded.) *)
Theorem groupTasks_buckets (sorted : list Task) :
  Forall (fun t => status t ∉ OBJECT_PROTOTYPE_KEYS) sorted →
  ∃ grouped, groupTasks sorted = Some grouped
    ∧ (∀ k, is_Some (grouped !! k) ↔ ∃ t, t ∈ sorted ∧ status t = k)
    ∧ (∀ k, column grouped k = tasksWithStatus k sorted)
    ∧ (∀ t, t ∈ sorted → status t ∉ STATUS_KEYS →
         t ∈ column grouped (status t)
         ∧ ∀ k, k ∈ STATUS_KEYS → t ∉ column grouped k).
Proof.
  intros Hl. destruct (groupTasks_lookup sorted Hl) as (grouped & Hrun & Hk).
  exists grouped. split; [done|].
  assert (Hcol : ∀ k, column grouped k = tasksWithStatus k sorted).
  { intros k. unfold column. rewrite Hk.
    by destruct (tasksWithStatus k sorted). }
  split.
  { intros k. rewrite Hk. split.
    - destruct (tasksWithStatus k sorted) as [|t l] eqn:E; simpl.
      + by intros [? ?].
      + intros _. exists t. apply elem_of_tasksWithStatus.
        rewrite E. by left.
    - intros (t & Ht). apply elem_of_tasksWithStatus in Ht.
      destruct (tasksWithStatus k sorted); simpl; [|done].
      by apply elem_of_nil in Ht. }
  split; [done|].
  intros t Ht Hunknown. rewrite Hcol. split.
  - by apply elem_of_tasksWithStatus.
  - intros k Hkn. rewrite Hcol, elem_of_tasksWithStatus. intros [_ <-]. done.
Qed.

(** C2, as stated, fails: grouping a single task of status "archived"
    yields a mapping with the key "archived", which is none of the four
    known statuses, and the task is in that bucket. *)
Lemma groupTasks_keeps_unknown_status :
  ∃ grouped, groupTasks [Sample.archived] = Some grouped
    ∧ grouped !! "archived" = Some [Sample.archived]
    ∧ "archived" ∉ STATUS_KEYS.
Proof.
  exists (<["archived" := [Sample.archived]]> ∅). split; [|split].
  - unfold groupTasks. cbn [reduce]. unfold groupStep.
    rewrite lookup_empty. rewrite bool_decide_eq_false_2; [done|].
    intros H%list_elem_of_In. simpl in H. intuition discriminate.
  - apply lookup_insert_eq.
  - intros H%list_elem_of_In. simpl in H. intuition discriminate.
Qed.

(** ** State updaters *)

Lemma Forall2_map_same {A : Type} (R : A → A → Prop) (f : A → A) (l : list A) :
  (∀ x, R x (f x)) → Forall2 R l (map f l).
Proof.
  intros HR. induction l as [|x l IH]; simpl; constructor; auto.
Qed.

Lemma sameButStatus_refl t : sameButStatus t t.
Proof. by repeat split. Qed.

(** C9.  Position by position, [handleToggleComplete] rewrites only the
    tasks with the given id: one that was not completed becomes completed
    with [completedAt] set to the current instant, one that was completed
    gets [completedAt] cleared, and the fields other than [status] and
    [completedAt] are kept.  [handleStatusChange] rewrites only the
    [status] of the tasks with the given id, keeping every other field,
    [completedAt] included.  Both leave every task with another id
    exactly as it was. *)
Theorem toggle_and_move_frame (taskId nextStatus : string) (now : Z) (current : list Task) :
  Forall2 (fun before after =>
             (id before = taskId →
                sameButCompletion before after
                ∧ (status before ≠ "completed" →
                     status after = "completed" ∧ completedAt after = Some now)
                ∧ (status before = "completed" → completedAt after = None))
             ∧ (id before ≠ taskId → after = before))
          current (handleToggleComplete taskId now current)
  ∧ Forall2 (fun before after =>
               (id before = taskId →
                  status after = nextStatus ∧ sameButStatus before after)
               ∧ (id before ≠ taskId → after = before))
            current (handleStatusChange taskId nextStatus current).
Proof.
  split.
  - apply Forall2_map_same. intros t.
    destruct (decide (id t = taskId)) as [E|E].
    + rewrite bool_decide_eq_false_2 by (intros ?; contradiction).
      split; [|done]. intros _. simpl. split; [by repeat split|].
      split; intros Hs.
      * by rewrite bool_decide_eq_false_2.
      * by rewrite bool_decide_eq_true_2.
    + rewrite bool_decide_eq_true_2 by done. split; [done|]. done.
  - apply Forall2_map_same. intros t.
    destruct (decide (id t = taskId)) as [E|E].
    + rewrite bool_decide_eq_true_2 by done.
      split; [|done]. intros _. simpl. split; [done|]. by repeat split.
    + rewrite bool_decide_eq_false_2 by done. split; [done|]. done.
Qed.

(** C10.  Toggling a completed task puts it into the fixed status "today"
    and clears [completedAt], whatever status it had before it was
    completed.  That earlier status is stored nowhere: two tasks that
    differ only in their (non-completed) status become the same record
    once toggled to completed, and a task toggled twice ends in "today"
    rather than where it started. *)
Theorem toggle_completed_resets_to_today (taskId : string) (now : Z) (current : list Task) :
  Forall2 (fun before after =>
             id before = taskId → status before = "completed" →
             status after = "today" ∧ completedAt after = None
             ∧ sameButCompletion before after)
          current (handleToggleComplete taskId now current)
  ∧ (∀ t1 t2, id t1 = taskId → sameButStatus t1 t2 →
       status t1 ≠ "completed" → status t2 ≠ "completed" →
       handleToggleComplete taskId now [t1] = handleToggleComplete taskId now [t2])
  ∧ (∀ t later, id t = taskId → status t ≠ "completed" →
       ∃ t', handleToggleComplete taskId later (handleToggleComplete taskId now [t]) = [t']
             ∧ status t' = "today" ∧ completedAt t' = None
             ∧ sameButCompletion t t').
Proof.
  split; [|split].
  - apply Forall2_map_same. intros t E Hs.
    rewrite bool_decide_eq_false_2 by (intros ?; contradiction).
    rewrite bool_decide_eq_true_2 by done. simpl. by repeat split.
  - intros t1 t2 E1 (Hid & Ht & Hd & Hdue & Hp & Htag & Hc & Hca) H1 H2.
    simpl.
    rewrite !bool_decide_eq_false_2
      by first [ done | intros ?; congruence ].
    rewrite Hid, Ht, Hd, Hdue, Hp, Htag, Hc. done.
  - intros t later E Hs. simpl.
    rewrite (bool_decide_eq_false_2 (id t ≠ taskId)) by (intros ?; contradiction).
    rewrite (bool_decide_eq_false_2 (status t = "completed")) by done.
    simpl.
    rewrite bool_decide_eq_false_2 by (intros ?; contradiction).
    simpl. eexists. split; [reflexivity|]. simpl. by repeat split.
Qed.

(** ** Metrics *)

Lemma fixedOffset_laws offset : CalendarLaws (fixedOffset offset).
Proof.
  split; simpl.
  - intros s t Hst. apply Z.div_le_mono; [done | lia].
  - intros n. replace (n * MS_PER_DAY - offset + offset) with (n * MS_PER_DAY) by lia.
    by apply Z.div_mul.
Qed.

Lemma dueSoonCallback_window now task :
  dueSoonCallback now task
  = match dueDate task with
    | Some due => (now <=? due) && (due <=? now + 3 * MS_PER_DAY)
    | None => false
    end.
Proof.
  unfold dueSoonCallback. destruct (dueDate task) as [due|]; [|done].
  apply eq_true_iff_eq.
  rewrite !andb_true_iff, !Qle_bool_iff, !Z.leb_le.
  unfold Qle, Qdiv, Qmult, Qinv, inject_Z, MS_PER_DAY. simpl. lia.
Qed.

Lemma filter_filter_andb {A : Type} (f g : A → bool) (l : list A) :
  List.filter f (List.filter g l) = List.filter (fun x => g x && f x) l.
Proof.
  induction l as [|x l IH]; simpl; [done|].
  destruct (g x); simpl; [|done]. destruct (f x); by rewrite IH.
Qed.

Lemma dueSoon_count now tasks :
  length (List.filter (dueSoonCallback now)
            (List.filter (fun task => bool_decide (status task ≠ "completed")) tasks))
  = length (List.filter (dueWithinWindow now) tasks).
Proof.
  rewrite filter_filter_andb. f_equal. apply filter_ext.
  intros t. unfold dueWithinWindow. by rewrite dueSoonCallback_window.
Qed.

Lemma omap_cons_eq {A B : Type} (f : A → option B) (x : A) (l : list A) :
  omap f (x :: l) = match f x with Some y => y :: omap f l | None => omap f l end.
Proof. reflexivity. Qed.

Section StreakFacts.
Context {cal : Calendar} {laws : CalendarLaws cal}.

Lemma dayStart_inj a b : dayStart a = dayStart b → a = b.
Proof.
  intros E. rewrite <- (dayIndex_dayStart a), <- (dayIndex_dayStart b). by rewrite E.
Qed.

Lemma setDateBack_today now i :
  setDateBack (setHours0 now) i = dayStart (dayIndex now - i).
Proof.
  unfold setDateBack, setHours0. rewrite dayIndex_dayStart. lia.
Qed.

Lemma streakLoop_spec days today n index streak :
  let r := streakLoop days today n index streak in
  (streak ≤ r ≤ streak + n)%nat
  ∧ (∀ j : nat, (streak + j < r)%nat → setDateBack today (index + Z.of_nat j) ∈ days)
  ∧ (r = (streak + n)%nat
     ∨ setDateBack today (index + Z.of_nat (r - streak)) ∉ days).
Proof.
  revert index streak. induction n as [|n IH]; intros index streak; cbn zeta.
  - simpl. split; [lia|]. split; [intros j; lia|]. left. lia.
  - cbn [streakLoop]. case_bool_decide as Hin.
    + destruct (IH (index + 1) (S streak)) as (Hb & Hall & Hstop).
      set (r := streakLoop days today n (index + 1) (S streak)) in *.
      split; [lia|]. split.
      * intros [|j] Hj.
        -- by replace (index + Z.of_nat 0) with index by lia.
        -- replace (index + Z.of_nat (S j)) with (index + 1 + Z.of_nat j) by lia.
           apply Hall. lia.
      * destruct Hstop as [Hstop|Hstop]; [left; lia|]. right.
        replace (index + Z.of_nat (r - streak))
          with (index + 1 + Z.of_nat (r - S streak)) by lia.
        done.
    + split; [lia|]. split; [intros j; lia|]. right.
      replace (index + Z.of_nat (streak - streak)) with index by lia. done.
Qed.

Lemma mapM_completionDay (completed : list Task) :
  Forall (fun t => completedAt t ≠ Some 0 ∧ is_Some (completionInstant t)) completed →
  ∃ isoDays, mapM completionDay completed = Some isoDays
    ∧ ∀ n, dayStart n ∈ isoDays
           ↔ n ∈ omap (fun t => dayIndex <$> completionInstant t) completed.
Proof.
  induction 1 as [|t l [Hnz [inst Hinst]] Hl (isoDays & Hrun & Hdays)].
  - exists []. split; [done|]. intros n. simpl. by rewrite !elem_of_nil.
  - assert (Hday : completionDay t = Some (dayStart (dayIndex inst))).
    { unfold completionDay, completionInstant, truthy_num in *.
      destruct (completedAt t) as [c|].
      - injection Hinst as ->.
        destruct (Z.eqb_spec inst 0) as [->|_]; [done|]. done.
      - simpl. by rewrite Hinst. }
    exists (dayStart (dayIndex inst) :: isoDays). split.
    + cbn [mapM]. rewrite Hday. simpl. by rewrite Hrun.
    + intros n. rewrite omap_cons_eq, Hinst. simpl.
      rewrite !elem_of_cons, Hdays. split.
      * intros [E%dayStart_inj|?]; auto.
      * intros [->|?]; auto.
Qed.

(** What [calculateStreak] returns on the completed tasks of a well-dated
    collection: the length of the run of days, from today backwards,
    that are among the completed days, cut at 10. *)
Lemma calculateStreak_spec now tasks :
  Forall wellDated tasks →
  ∃ s, calculateStreak now (tasksWithStatus "completed" tasks) = Some s
    ∧ (s ≤ 10)%nat
    ∧ (∀ i : nat, (i < s)%nat → dayIndex now - Z.of_nat i ∈ completedDays tasks)
    ∧ (s = 10%nat ∨ dayIndex now - Z.of_nat s ∉ completedDays tasks).
Proof.
  intros Hdated. unfold calculateStreak, completedDays.
  assert (Hc : Forall (fun t => completedAt t ≠ Some 0 ∧ is_Some (completionInstant t))
                      (tasksWithStatus "completed" tasks)).
  { apply Forall_forall. intros t [Ht Hs]%elem_of_tasksWithStatus.
    eapply Forall_forall in Hdated; [|exact Ht]. by apply Hdated. }
  case_bool_decide as Hempty.
  - exists 0%nat. split; [done|]. split; [lia|]. split; [intros i; lia|].
    right. apply length_zero_iff_nil in Hempty. rewrite Hempty. simpl.
    apply not_elem_of_nil.
  - destruct (mapM_completionDay _ Hc) as (isoDays & -> & Hdays). cbn -[streakLoop].
    eexists. split; [reflexivity|].
    destruct (streakLoop_spec (list_to_set isoDays) (setHours0 now) 10 0 0)
      as (Hb & Hall & Hstop).
    set (s := streakLoop _ _ _ _ _) in *.
    split; [lia|]. split.
    + intros i Hi. apply Hdays. specialize (Hall i Hi).
      rewrite setDateBack_today, elem_of_list_to_set in Hall.
      by replace (0 + Z.of_nat i) with (Z.of_nat i) in Hall by lia.
    + destruct Hstop as [Hstop|Hstop]; [by left|]. right.
      rewrite setDateBack_today, elem_of_list_to_set, Hdays in Hstop.
      by replace (0 + Z.of_nat (s - 0)) with (Z.of_nat s) in Hstop by lia.
Qed.

End StreakFacts.

Section MetricsFacts.
Context {cal : Calendar}.

(** [tasks.length || 1] *)
Lemma total_max (tasks : list Task) :
  (if bool_decide (length tasks = 0%nat) then 1%nat else length tasks)
  = Nat.max 1 (length tasks).
Proof. case_bool_decide; lia. Qed.

(** The division by [tasks.length || 1] has a value. *)
Lemma divide_total (a : nat) (tasks : list Task) :
  divide a (if bool_decide (length tasks = 0%nat) then 1%nat else length tasks)
  = Some (inject_Z (Z.of_nat a) / inject_Z (Z.of_nat (Nat.max 1 (length tasks))))%Q.
Proof.
  rewrite total_max. unfold divide. rewrite bool_decide_eq_false_2 by lia. done.
Qed.

(** Once the streak is computed the report is assembled without further
    failure, field by field as in the source. *)
Lemma calculateMetrics_fields now tasks s :
  calculateStreak now (tasksWithStatus "completed" tasks) = Some s →
  ∃ m, calculateMetrics now tasks = Some m
    ∧ streak m = s
    ∧ completionRate m
      = (inject_Z (Z.of_nat (length (tasksWithStatus "completed" tasks)))
         / inject_Z (Z.of_nat (Nat.max 1 (length tasks))))%Q
    ∧ dueSoon m = length (List.filter (dueWithinWindow now) tasks)
    ∧ activeCount m
      = length (List.filter (fun t => bool_decide (status t ≠ "completed")) tasks)
    ∧ focusArea m = determineFocusArea (completionRate m) (activeCount m) (dueSoon m).
Proof.
  intros Hs. unfold calculateMetrics. cbv zeta.
  change (List.filter (fun task => bool_decide (status task = "completed")) tasks)
    with (tasksWithStatus "completed" tasks).
  rewrite divide_total, Hs. cbn [mbind option_bind].
  eexists. split; [reflexivity|]. cbn [streak completionRate dueSoon activeCount focusArea].
  rewrite dueSoon_count. done.
Qed.

Lemma calculateMetrics_total {laws : CalendarLaws cal} now tasks :
  Forall wellDated tasks →
  ∃ m, calculateMetrics now tasks = Some m
    ∧ (streak m ≤ 10)%nat
    ∧ (∀ i : nat, (i < streak m)%nat → dayIndex now - Z.of_nat i ∈ completedDays tasks)
    ∧ (streak m = 10%nat ∨ dayIndex now - Z.of_nat (streak m) ∉ completedDays tasks)
    ∧ completionRate m
      = (inject_Z (Z.of_nat (length (tasksWithStatus "completed" tasks)))
         / inject_Z (Z.of_nat (Nat.max 1 (length tasks))))%Q
    ∧ dueSoon m = length (List.filter (dueWithinWindow now) tasks)
    ∧ activeCount m
      = length (List.filter (fun t => bool_decide (status t ≠ "completed")) tasks)
    ∧ focusArea m = determineFocusArea (completionRate m) (activeCount m) (dueSoon m).
Proof.
  intros Hdated.
  destruct (calculateStreak_spec now tasks Hdated) as (s & Hs & Hle & Hrun & Hstop).
  destruct (calculateMetrics_fields now tasks s Hs) as (m & Hm & <- & Hrest).
  exists m. by repeat (split; [done|]).
Qed.

End MetricsFacts.

Lemma dueWithinWindow_iff now task :
  dueWithinWindow now task = true
  ↔ status task ≠ "completed"
    ∧ ∃ due, dueDate task = Some due ∧ now ≤ due ≤ now + 3 * MS_PER_DAY.
Proof.
  unfold dueWithinWindow. rewrite andb_true_iff, bool_decide_eq_true.
  destruct (dueDate task) as [due|].
  - rewrite andb_true_iff, !Z.leb_le. split.
    + intros [Hs Hw]. split; [done|]. by exists due.
    + intros [Hs (d & [= <-] & Hw)]. done.
  - split; [by intros [_ ?] | by intros [_ (d & ? & _)]].
Qed.

(** C1, as the code has it.  [dueSoon] is the number of tasks that are
    not completed and whose due instant lies between [now] and
    [now + 3 days], both ends included; a task without due date never
    counts.  The window is one of instants, not of calendar dates: a
    task due on an earlier calendar day than today never counts, and a
    task due today counts only if its instant is not before [now]. *)
Theorem dueSoon_counts_instant_window {cal : Calendar} {laws : CalendarLaws cal}
    (now : Z) (tasks : list Task) :
  Forall wellDated tasks →
  ∃ m, calculateMetrics now tasks = Some m
    ∧ dueSoon m = length (List.filter (dueWithinWindow now) tasks)
    ∧ (∀ t, dueWithinWindow now t = true
            ↔ status t ≠ "completed"
              ∧ ∃ due, dueDate t = Some due ∧ now ≤ due ≤ now + 3 * MS_PER_DAY)
    ∧ (∀ t, dueDate t = None → dueWithinWindow now t = false)
    ∧ (∀ t due, dueDate t = Some due → dayIndex due < dayIndex now →
                dueWithinWindow now t = false)
    ∧ (∀ t due, dueDate t = Some due → dayIndex due = dayIndex now → due < now →
                dueWithinWindow now t = false).
Proof.
  intros Hdated.
  destruct (calculateMetrics_total now tasks Hdated)
    as (m & Hm & _ & _ & _ & _ & Hdue & _).
  exists m. split; [done|]. split; [done|].
  split; [apply dueWithinWindow_iff|].
  split; [|split].
  - intros t Hnone. apply not_true_is_false.
    rewrite dueWithinWindow_iff. intros [_ (d & Hd & _)]. congruence.
  - intros t due Hd Hday. apply not_true_is_false.
    rewrite dueWithinWindow_iff. intros [_ (d & Hd' & Hw)].
    assert (d = due) as -> by congruence.
    pose proof (dayIndex_mono now due). lia.
  - intros t due Hd _ Hlt. apply not_true_is_false.
    rewrite dueWithinWindow_iff. intros [_ (d & Hd' & Hw)].
    assert (d = due) as -> by congruence. lia.
Qed.

(** C1, as stated, fails on its "due today" half: at 15:00 a task that
    is not completed and due at 12:00 of the same day has a due date of
    today, and [dueSoon] is 0. *)
Lemma dueSoon_misses_task_due_earlier_today :
  @dayIndex (fixedOffset 0) Sample.noon = @dayIndex (fixedOffset 0) Sample.afternoon
  ∧ dueDate Sample.dueAtNoon = Some Sample.noon
  ∧ status Sample.dueAtNoon ≠ "completed"
  ∧ dueSoon <$> @calculateMetrics (fixedOffset 0) Sample.afternoon [Sample.dueAtNoon]
    = Some 0%nat.
Proof.
  split; [by vm_compute|]. split; [done|]. split; [done|]. by vm_compute.
Qed.

Lemma Qle_bool_false_iff x y : Qle_bool x y = false ↔ (y < x)%Q.
Proof.
  rewrite <- not_true_iff_false, Qle_bool_iff. split.
  - apply Qnot_le_lt.
  - apply Qlt_not_le.
Qed.


(** C7.  For a collection whose completed tasks are well dated, [streak]
    is the number of consecutive calendar days, today first and then
    backwards, on which some completed task counts (by [completedAt],
    else [dueDate], else [createdAt]); the walk ends at the first day
    without one or after 10 days.  Hence the streak is at most 10, it is
    0 when no task is completed, and it is 3 when today and the two days
    before have a completed task and the day before those has none. *)
Theorem streak_counts_consecutive_days {cal : Calendar} {laws : CalendarLaws cal}
    (now : Z) (tasks : list Task) :
  Forall wellDated tasks →
  ∃ m, calculateMetrics now tasks = Some m
    ∧ (0 ≤ streak m ≤ 10)%nat
    ∧ (∀ i : nat, (i < streak m)%nat → dayIndex now - Z.of_nat i ∈ completedDays tasks)
    ∧ (streak m = 10%nat ∨ dayIndex now - Z.of_nat (streak m) ∉ completedDays tasks)
    ∧ (tasksWithStatus "completed" tasks = [] → streak m = 0%nat)
    ∧ (dayIndex now ∈ completedDays tasks →
       dayIndex now - 1 ∈ completedDays tasks →
       dayIndex now - 2 ∈ completedDays tasks →
       dayIndex now - 3 ∉ completedDays tasks →
       streak m = 3%nat).
Proof.
  intros Hdated.
  destruct (calculateMetrics_total now tasks Hdated)
    as (m & Hm & Hle & Hrun & Hstop & _).
  exists m. split; [done|]. split; [lia|]. split; [done|]. split; [done|].
  split.
  - intros Hnone. destruct (streak m) as [|s] eqn:E; [done|].
    specialize (Hrun 0%nat ltac:(lia)).
    unfold completedDays in Hrun. rewrite Hnone in Hrun.
    by apply elem_of_nil in Hrun.
  - intros H0 H1 H2 H3.
    destruct (decide (streak m < 3)%nat) as [Hlt|Hge].
    + destruct Hstop as [Hstop|Hstop]; [lia|]. exfalso. apply Hstop.
      destruct (streak m) as [|[|[|s]]]; simpl; try lia.
      * by replace (dayIndex now - 0) with (dayIndex now) by lia.
      * done.
      * done.
    + destruct (decide (streak m = 3)%nat) as [|Hne]; [done|].
      exfalso. apply H3. apply (Hrun 3%nat). lia.
Qed.

Lemma completionRate_bounds (tasks : list Task) :
  let rate := (inject_Z (Z.of_nat (length (tasksWithStatus "completed" tasks)))
               / inject_Z (Z.of_nat (Nat.max 1 (length tasks))))%Q in
  (0 < inject_Z (Z.of_nat (Nat.max 1 (length tasks))))%Q ∧ (0 <= rate)%Q ∧ (rate <= 1)%Q.
Proof.
  cbn zeta.
  assert (Hpos : (0 < inject_Z (Z.of_nat (Nat.max 1 (length tasks))))%Q).
  { change 0%Q with (inject_Z 0). rewrite <- Zlt_Qlt. lia. }
  assert (Hle : (length (tasksWithStatus "completed" tasks) ≤ length tasks)%nat).
  { unfold tasksWithStatus. apply filter_length_le. }
  split; [done|]. split.
  - apply Qle_shift_div_l; [done|].
    rewrite Qmult_0_l. change 0%Q with (inject_Z 0). rewrite <- Zle_Qle. lia.
  - apply Qle_shift_div_r; [done|].
    rewrite Qmult_1_l. rewrite <- Zle_Qle. lia.
Qed.



(** ** The statements at work on the sample board *)

Local Existing Instance asciiStrings.

Lemma sample_known_status : Forall known_status [Sample.A; Sample.B; Sample.C].
Proof.
  repeat constructor; unfold known_status; apply list_elem_of_In; simpl; tauto.
Qed.

Lemma sample_known_priority : Forall known_priority [Sample.A; Sample.B; Sample.C].
Proof.
  repeat constructor; unfold known_priority; apply list_elem_of_In; simpl; tauto.
Qed.

Lemma sample_wellDated : Forall wellDated Sample.threeDayRun.
Proof.
  unfold Sample.threeDayRun.
  repeat match goal with |- Forall _ _ => constructor end; intros Hs;
    first [ discriminate Hs | split; [discriminate | by eexists] ].
Qed.

Example filter_scenario_search :
  filteredTasks [Sample.A; Sample.B; Sample.C] "all" "  OFFICE " = [Sample.B].
Proof. reflexivity. Qed.

Example filter_scenario_high :
  filteredTasks [Sample.A; Sample.B; Sample.C] "high" "" = [Sample.A].
Proof. reflexivity. Qed.

Example streak_scenario :
  streak <$> @calculateMetrics (fixedOffset 0) Sample.afternoon Sample.threeDayRun
  = Some 3%nat.
Proof. by vm_compute. Qed.

Lemma filteredTasks_membership_witness :
  Forall known_status [Sample.A; Sample.B; Sample.C]
  ∧ Sample.A ∈ filteredTasks [Sample.A; Sample.B; Sample.C] "high" " Ops TEAM ".
Proof.
  split; [exact sample_known_status|].
  apply (proj2 (filteredTasks_membership [Sample.A; Sample.B; Sample.C]
                  "high" " Ops TEAM " Sample.A sample_known_status)).
  split; [by left|]. split.
  - right. left. split; reflexivity.
  - right. exists "ship release  ", "". reflexivity.
Defined.

Lemma prioritizeTasks_orders_witness :
  ("priority" = "priority" → Forall known_priority [Sample.A; Sample.B; Sample.C])
  ∧ StronglySorted (inOrder "priority")
      (prioritizeTasks [Sample.A; Sample.B; Sample.C] "priority").
Proof.
  split; [intros _; exact sample_known_priority|].
  apply (prioritizeTasks_orders [Sample.A; Sample.B; Sample.C] "priority").
  intros _. exact sample_known_priority.
Defined.

Lemma sample_known_priority_ties :
  Forall known_priority [Sample.B; Sample.A; Sample.C; Sample.A2].
Proof.
  repeat constructor; unfold known_priority; apply list_elem_of_In; simpl; tauto.
Qed.

Lemma prioritizeTasks_stable_witness :
  ("priority" = "priority" → Forall known_priority [Sample.B; Sample.A; Sample.C; Sample.A2])
  ∧ withKey "priority" (Some 3)
      (prioritizeTasks [Sample.B; Sample.A; Sample.C; Sample.A2] "priority")
    = [Sample.A; Sample.A2].
Proof.
  split; [intros _; exact sample_known_priority_ties|].
  rewrite (proj1 (prioritizeTasks_stable [Sample.B; Sample.A; Sample.C; Sample.A2] "priority"
                    (fun _ => sample_known_priority_ties))).
  reflexivity.
Defined.

Lemma sample_no_inherited_status :
  Forall (fun t => status t ∉ OBJECT_PROTOTYPE_KEYS) [Sample.A; Sample.archived].
Proof.
  repeat constructor; intros H%list_elem_of_In; simpl in H; intuition discriminate.
Qed.

Lemma groupTasks_buckets_witness :
  Forall (fun t => status t ∉ OBJECT_PROTOTYPE_KEYS) [Sample.A; Sample.archived]
  ∧ ∃ grouped, groupTasks [Sample.A; Sample.archived] = Some grouped
      ∧ column grouped "archived" = [Sample.archived].
Proof.
  split; [exact sample_no_inherited_status|].
  destruct (groupTasks_buckets [Sample.A; Sample.archived] sample_no_inherited_status)
    as (grouped & Hrun & _ & Hcol & _).
  exists grouped. split; [exact Hrun|]. rewrite Hcol. reflexivity.
Defined.

Lemma dueSoon_counts_instant_window_witness :
  Forall wellDated Sample.threeDayRun
  ∧ ∃ m, @calculateMetrics (fixedOffset 0) Sample.afternoon Sample.threeDayRun = Some m
      ∧ dueSoon m = 0%nat.
Proof.
  split; [exact sample_wellDated|].
  destruct (@dueSoon_counts_instant_window (fixedOffset 0) (fixedOffset_laws 0)
              Sample.afternoon Sample.threeDayRun sample_wellDated)
    as (m & Hrun & Hdue & _).
  exists m. split; [exact Hrun|]. rewrite Hdue. reflexivity.
Defined.


Lemma streak_counts_consecutive_days_witness :
  Forall wellDated Sample.threeDayRun
  ∧ ∃ m, @calculateMetrics (fixedOffset 0) Sample.afternoon Sample.threeDayRun = Some m
      ∧ (0 ≤ streak m ≤ 10)%nat.
Proof.
  split; [exact sample_wellDated|].
  destruct (@streak_counts_consecutive_days (fixedOffset 0) (fixedOffset_laws 0)
              Sample.afternoon Sample.threeDayRun sample_wellDated)
    as (m & Hrun & Hle & _).
  exists m. split; [exact Hrun | exact Hle].
Defined.


Lemma toggle_and_move_frame_witness :
  Forall2 (fun before after =>
             (id before = "b" → status after = "completed" ∧ sameButStatus before after)
             ∧ (id before ≠ "b" → after = before))
          [Sample.A; Sample.B] (handleStatusChange "b" "completed" [Sample.A; Sample.B]).
Proof.
  exact (proj2 (toggle_and_move_frame "b" "completed" 0 [Sample.A; Sample.B])).
Defined.

Lemma toggle_completed_resets_to_today_witness :
  (id Sample.C = "c" ∧ status Sample.C ≠ "completed")
  ∧ ∃ t', handleToggleComplete "c" 9 (handleToggleComplete "c" 7 [Sample.C]) = [t']
          ∧ status t' = "today" ∧ completedAt t' = None
          ∧ sameButCompletion Sample.C t'.
Proof.
  assert (H : id Sample.C = "c" ∧ status Sample.C ≠ "completed") by (split; [reflexivity | discriminate]).
  split; [exact H|].
  exact (proj2 (proj2 (toggle_completed_resets_to_today "c" 7 [Sample.C]))
           Sample.C 9 (proj1 H) (proj2 H)).
Defined.

(** * Further properties *)

(** ** Sorting again, and sorting a selection *)

Section ArraySortMore.
Context {A : Type} (comparefn : A → A → Num).
Context (R : relation A) (P : A → Prop).
Context (R_trans : Transitive R).
Context (R_total : ∀ x y, P x → P y → R x y ∨ R y x).
Context (R_after : ∀ x y, P x → P y → (after comparefn x y = false ↔ R x y)).

Lemma sort_insert_front x l :
  match l with [] => True | y :: _ => after comparefn x y = false end →
  sort_insert comparefn x l = x :: l.
Proof.
  destruct l as [|y l]; simpl; [done|]. by intros ->.
Qed.

Lemma Array_sort_fixed l :
  Forall P l → StronglySorted R l → Array_sort comparefn l = l.
Proof.
  intros Pl Hs. induction Hs as [|x l Hs IH Hx]; [done|].
  apply Forall_cons in Pl as [Px Pl].
  cbn [Array_sort]. rewrite IH by done.
  apply sort_insert_front. destruct l as [|y l]; [done|].
  apply Forall_cons in Pl as [Py _]. apply Forall_cons in Hx as [Hxy _].
  by apply R_after.
Qed.

Lemma Array_sort_sorted_total l :
  Forall P l → StronglySorted R (Array_sort comparefn l).
Proof.
  apply Array_sort_sorted; [done| |].
  - intros x y Px Py. by apply R_after.
  - intros x y Px Py Hxy.
    destruct (R_total x y Px Py) as [Hr|Hr]; [|done].
    apply R_after in Hr; [congruence|done..].
Qed.

Lemma Array_sort_idempotent l :
  Forall P l → Array_sort comparefn (Array_sort comparefn l) = Array_sort comparefn l.
Proof.
  intros Pl. apply Array_sort_fixed.
  - by rewrite Array_sort_perm.
  - by apply Array_sort_sorted_total.
Qed.

Lemma sort_insert_filter (c : A → bool) x l :
  P x → Forall P l → StronglySorted R l →
  List.filter c (sort_insert comparefn x l)
  = if c x then sort_insert comparefn x (List.filter c l) else List.filter c l.
Proof.
  intros Px Pl Hs. induction Hs as [|y l Hs IH Hy].
  - simpl. by destruct (c x).
  - apply Forall_cons in Pl as [Py Pl]. specialize (IH Pl).
    cbn [sort_insert]. destruct (after comparefn x y) eqn:E.
    + cbn [List.filter]. rewrite IH.
      destruct (c x), (c y); try done.
      cbn [sort_insert]. by rewrite E.
    + change (List.filter c (x :: y :: l))
        with (if c x then x :: List.filter c (y :: l) else List.filter c (y :: l)).
      destruct (c x) eqn:Cx; [|done].
      symmetry. apply sort_insert_front.
      assert (Hall : Forall (fun z => after comparefn x z = false) (y :: l)).
      { constructor; [done|].
        apply Forall_forall. intros z Hz. apply R_after; [done| |].
        - by eapply Forall_forall in Pl.
        - transitivity y; [by apply R_after|]. by eapply Forall_forall in Hy. }
      assert (Hsub : Forall (fun z => after comparefn x z = false)
                            (List.filter c (y :: l))).
      { apply Forall_forall. intros z Hz%list_elem_of_In%filter_In.
        destruct Hz as [Hz _]. apply list_elem_of_In in Hz.
        by eapply Forall_forall in Hall. }
      destruct (List.filter c (y :: l)) as [|z ?]; [done|].
      by apply Forall_cons in Hsub as [? _].
Qed.

Lemma Array_sort_filter (c : A → bool) l :
  Forall P l →
  List.filter c (Array_sort comparefn l) = Array_sort comparefn (List.filter c l).
Proof.
  induction l as [|x l IH]; [done|]. intros Pl.
  apply Forall_cons in Pl as [Px Pl].
  cbn [Array_sort]. rewrite sort_insert_filter.
  - cbn [List.filter]. rewrite IH by done. by destruct (c x).
  - done.
  - by rewrite Array_sort_perm.
  - by apply Array_sort_sorted_total.
Qed.

End ArraySortMore.

Lemma compareTasks_inOrder mode x y :
  (mode = "priority" → known_priority x) →
  (mode = "priority" → known_priority y) →
  after (compareTasks mode) x y = false ↔ inOrder mode x y.
Proof.
  intros Hx Hy. split; [by apply compareTasks_before|].
  unfold after, compareTasks, inOrder, sortKey.
  repeat case_bool_decide.
  - destruct (known_priority_weight x) as (wx & -> & _); [auto|].
    destruct (known_priority_weight y) as (wy & -> & _); [auto|].
    simpl. intros ?. apply Z.ltb_ge. lia.
  - destruct (dueDate x), (dueDate y); simpl; try done.
    intros ?. apply Z.ltb_ge. lia.
  - simpl. intros ?. apply Z.ltb_ge. lia.
Qed.

Lemma inOrder_total mode x y : inOrder mode x y ∨ inOrder mode y x.
Proof.
  unfold inOrder. repeat case_bool_decide; try lia.
  destruct (sortKey mode x), (sortKey mode y); simpl; try lia; auto.
Qed.

Lemma Forall_known_when tasks mode :
  (mode = "priority" → Forall known_priority tasks) →
  Forall (fun t => mode = "priority" → known_priority t) tasks.
Proof.
  intros Hk. apply Forall_forall. intros t Ht Hm.
  specialize (Hk Hm). by eapply Forall_forall in Hk.
Qed.

Lemma prioritizeTasks_sorted tasks mode :
  (mode = "priority" → Forall known_priority tasks) →
  StronglySorted (inOrder mode) (prioritizeTasks tasks mode).
Proof.
  intros Hk.
  apply (Array_sort_sorted_total _ (inOrder mode)
           (fun t => mode = "priority" → known_priority t)).
  - apply inOrder_trans.
  - intros. apply inOrder_total.
  - intros. by apply compareTasks_inOrder.
  - by apply Forall_known_when.
Qed.

(** X1.  Sorting a board that is already in the order of the mode leaves
    it as it is; in particular sorting twice is the same as sorting
    once. *)
Theorem prioritizeTasks_idempotent (tasks : list Task) (mode : string) :
  (mode = "priority" → Forall known_priority tasks) →
  (StronglySorted (inOrder mode) tasks → prioritizeTasks tasks mode = tasks)
  ∧ prioritizeTasks (prioritizeTasks tasks mode) mode = prioritizeTasks tasks mode.
Proof.
  intros Hk. split.
  - intros Hs.
    apply (Array_sort_fixed _ (inOrder mode)
             (fun t => mode = "priority" → known_priority t)).
    + intros. by apply compareTasks_inOrder.
    + by apply Forall_known_when.
    + done.
  - apply (Array_sort_idempotent _ (inOrder mode)
             (fun t => mode = "priority" → known_priority t)).
    + apply inOrder_trans.
    + intros. apply inOrder_total.
    + intros. by apply compareTasks_inOrder.
    + by apply Forall_known_when.
Qed.

(** X2.  Selecting and sorting commute: the tasks of a sorted board that
    pass a test are the sorted list of the tasks that pass it. *)
Theorem prioritizeTasks_filter (tasks : list Task) (mode : string) (c : Task → bool) :
  (mode = "priority" → Forall known_priority tasks) →
  List.filter c (prioritizeTasks tasks mode) = prioritizeTasks (List.filter c tasks) mode.
Proof.
  intros Hk.
  apply (Array_sort_filter _ (inOrder mode)
           (fun t => mode = "priority" → known_priority t)).
  - apply inOrder_trans.
  - intros. apply inOrder_total.
  - intros. by apply compareTasks_inOrder.
  - by apply Forall_known_when.
Qed.

(** ** The side panel lists *)

Lemma take_sorted_split {A : Type} (R : relation A) n (l : list A) :
  StronglySorted R l →
  StronglySorted R (take n l)
  ∧ ∀ a b, a ∈ take n l → b ∈ drop n l → R a b.
Proof.
  intros Hs. rewrite <- (take_drop n l) in Hs. split.
  - by eapply StronglySorted_app_1_l.
  - intros a b. by eapply StronglySorted_app_1_elem_of.
Qed.

Lemma elem_of_List_filter {A : Type} (c : A → bool) (l : list A) x :
  x ∈ List.filter c l ↔ x ∈ l ∧ c x = true.
Proof. by rewrite !list_elem_of_In, filter_In. Qed.

(** X3.  The focus trio holds min(3, number of active tasks) tasks, all
    of them active tasks of the board, in ascending order of due
    instant with the tasks without due date last; together with the
    active tasks left out it makes up the active tasks, and none of
    those left out is due before one of the trio. *)
Theorem focusTasks_soonest (tasks : list Task) :
  length (focusTasks tasks)
  = Nat.min 3 (length (List.filter (fun t => bool_decide (status t ≠ "completed")) tasks))
  ∧ (∀ t, t ∈ focusTasks tasks → t ∈ tasks ∧ status t ≠ "completed")
  ∧ StronglySorted (fun a b => leInfinity (dueDate a) (dueDate b)) (focusTasks tasks)
  ∧ ∃ rest,
      focusTasks tasks ++ rest
      ≡ₚ List.filter (fun t => bool_decide (status t ≠ "completed")) tasks
      ∧ ∀ a b, a ∈ focusTasks tasks → b ∈ rest → leInfinity (dueDate a) (dueDate b).
Proof.
  unfold focusTasks. cbn zeta.
  set (active := List.filter (fun t => bool_decide (status t ≠ "completed")) tasks).
  assert (Hperm : prioritizeTasks active "dueDate" ≡ₚ active) by apply Array_sort_perm.
  assert (Hs : StronglySorted (fun a b => leInfinity (dueDate a) (dueDate b))
                 (prioritizeTasks active "dueDate")).
  { apply (prioritizeTasks_sorted active "dueDate"). discriminate. }
  destruct (take_sorted_split _ 3 _ Hs) as [Htake Hsplit].
  split; [by rewrite length_take, Hperm|].
  split.
  { intros t Ht. eapply elem_of_sublist in Ht; [|apply sublist_take].
    rewrite Hperm in Ht. apply elem_of_List_filter in Ht as [Hin Hact].
    by apply bool_decide_eq_true in Hact. }
  split; [done|].
  exists (drop 3 (prioritizeTasks active "dueDate")).
  split; [by rewrite take_drop | done].
Qed.

(** X4.  The recent wins hold min(4, number of completed tasks) tasks,
    all of them completed tasks of the board, ordered by descending
    creation instant (0 for a missing one), not by completion instant;
    no completed task left out was created after one that is shown. *)
Theorem completedRecently_newest (tasks : list Task) :
  length (completedRecently tasks)
  = Nat.min 4 (length (tasksWithStatus "completed" tasks))
  ∧ (∀ t, t ∈ completedRecently tasks → t ∈ tasks ∧ status t = "completed")
  ∧ StronglySorted (fun a b => default 0 (createdAt b) ≤ default 0 (createdAt a))
      (completedRecently tasks)
  ∧ ∃ rest,
      completedRecently tasks ++ rest ≡ₚ tasksWithStatus "completed" tasks
      ∧ ∀ a b, a ∈ completedRecently tasks → b ∈ rest →
               default 0 (createdAt b) ≤ default 0 (createdAt a).
Proof.
  unfold completedRecently. cbn zeta.
  change (List.filter (fun task => bool_decide (status task = "completed")) tasks)
    with (tasksWithStatus "completed" tasks).
  set (done := tasksWithStatus "completed" tasks).
  assert (Hperm : prioritizeTasks done "createdAt" ≡ₚ done) by apply Array_sort_perm.
  assert (Hs : StronglySorted (fun a b => default 0 (createdAt b) ≤ default 0 (createdAt a))
                 (prioritizeTasks done "createdAt")).
  { apply (prioritizeTasks_sorted done "createdAt"). discriminate. }
  destruct (take_sorted_split _ 4 _ Hs) as [Htake Hsplit].
  split; [by rewrite length_take, Hperm|].
  split.
  { intros t Ht. eapply elem_of_sublist in Ht; [|apply sublist_take].
    rewrite Hperm in Ht. by apply elem_of_tasksWithStatus in Ht. }
  split; [done|].
  exists (drop 4 (prioritizeTasks done "createdAt")).
  split; [by rewrite take_drop | done].
Qed.

(** ** The board *)

Lemma List_filter_Permutation {A : Type} (c : A → bool) (l1 l2 : list A) :
  l1 ≡ₚ l2 → List.filter c l1 ≡ₚ List.filter c l2.
Proof.
  induction 1 as [|x l1 l2 _ IH|x y l|l1 l2 l3 _ IH1 _ IH2]; simpl.
  - done.
  - destruct (c x); by rewrite IH.
  - destruct (c x), (c y); try done. apply Permutation_swap.
  - by rewrite IH1.
Qed.

Lemma Forall_List_filter {A : Type} (Q : A → Prop) (c : A → bool) (l : list A) :
  Forall Q l → Forall Q (List.filter c l).
Proof.
  intros Hl. apply Forall_forall. intros x [Hx _]%elem_of_List_filter.
  by eapply Forall_forall in Hl.
Qed.

Lemma known_status_iff t :
  known_status t
  ↔ status t = "today" ∨ status t = "upcoming" ∨ status t = "backlog"
    ∨ status t = "completed".
Proof.
  unfold known_status, STATUS_KEYS.
  rewrite !elem_of_cons, elem_of_nil. tauto.
Qed.

Lemma count_by_known_status (l : list Task) :
  sum_list (map (fun k => length (tasksWithStatus k l)) STATUS_KEYS)
  = length (List.filter (fun t => bool_decide (known_status t)) l).
Proof.
  induction l as [|t l IH]; [done|].
  cbn [STATUS_KEYS map sum_list] in *. unfold tasksWithStatus in *.
  cbn [List.filter].
  destruct (decide (known_status t)) as [Hk|Hk].
  - rewrite (bool_decide_eq_true_2 (known_status t)) by done.
    cbn [length]. rewrite <- IH.
    apply known_status_iff in Hk.
    destruct Hk as [E|[E|[E|E]]]; rewrite E; simpl; lia.
  - rewrite (bool_decide_eq_false_2 (known_status t)) by done.
    rewrite <- IH.
    rewrite known_status_iff in Hk.
    rewrite !bool_decide_eq_false_2 by (intros E; apply Hk; auto). done.
Qed.

Section Board.
Context `{HostStrings}.

Lemma groupedTasks_lookup tasks criterion searchTerm sortMode :
  Forall (fun t => status t ∉ OBJECT_PROTOTYPE_KEYS) tasks →
  ∃ grouped, groupedTasks tasks criterion searchTerm sortMode = Some grouped
    ∧ ∀ k, column grouped k
           = tasksWithStatus k
               (prioritizeTasks (filteredTasks tasks criterion searchTerm) sortMode).
Proof.
  intros Hp. unfold groupedTasks.
  set (filtered := filteredTasks tasks criterion searchTerm).
  assert (Hsorted : Forall (fun t => status t ∉ OBJECT_PROTOTYPE_KEYS)
                      (prioritizeTasks filtered sortMode)).
  { unfold prioritizeTasks. rewrite Array_sort_perm.
    by apply Forall_List_filter. }
  destruct (groupTasks_lookup _ Hsorted) as (grouped & Hrun & Hk).
  exists grouped. split; [done|]. intros k. unfold column. rewrite Hk.
  by destruct (tasksWithStatus k _).
Qed.

End Board.

(** X5.  Each column of the board is the sorted list of the tasks that
    pass the filter and carry the column's status: grouping after
    sorting shows, per status, what sorting that status alone would. *)
Theorem groupedTasks_columns `{HostStrings}
    (tasks : list Task) (criterion searchTerm sortMode : string) :
  (sortMode = "priority" → Forall known_priority tasks) →
  Forall (fun t => status t ∉ OBJECT_PROTOTYPE_KEYS) tasks →
  ∃ grouped, groupedTasks tasks criterion searchTerm sortMode = Some grouped
    ∧ ∀ k, column grouped k
           = prioritizeTasks
               (tasksWithStatus k (filteredTasks tasks criterion searchTerm)) sortMode.
Proof.
  intros Hk Hp.
  destruct (groupedTasks_lookup tasks criterion searchTerm sortMode Hp)
    as (grouped & Hrun & Hcol).
  exists grouped. split; [done|]. intros k. rewrite Hcol.
  unfold tasksWithStatus.
  apply (Array_sort_filter _ (inOrder sortMode)
           (fun t => sortMode = "priority" → known_priority t)).
  - apply inOrder_trans.
  - intros. apply inOrder_total.
  - intros. by apply compareTasks_inOrder.
  - apply Forall_List_filter. by apply Forall_known_when.
Qed.

(** X6.  As long as no status names an inherited member of the
    accumulator object (where the memo throws), a column holds exactly
    the filtered tasks of its status, so a filtered task whose status is
    none of the four known ones is in none of the four columns; the
    sizes of the four columns add up to the number of filtered tasks
    with a known status, which is the number of all filtered tasks when
    every status is known. *)
Theorem groupedTasks_complete `{HostStrings}
    (tasks : list Task) (criterion searchTerm sortMode : string) :
  Forall (fun t => status t ∉ OBJECT_PROTOTYPE_KEYS) tasks →
  ∃ grouped, groupedTasks tasks criterion searchTerm sortMode = Some grouped
    ∧ (∀ k t, t ∈ column grouped k
              ↔ t ∈ filteredTasks tasks criterion searchTerm ∧ status t = k)
    ∧ (∀ t, t ∈ filteredTasks tasks criterion searchTerm →
            status t ∉ STATUS_KEYS →
            ∀ k, k ∈ STATUS_KEYS → t ∉ column grouped k)
    ∧ sum_list (map (fun k => length (column grouped k)) STATUS_KEYS)
      = length (List.filter (fun t => bool_decide (known_status t))
                  (filteredTasks tasks criterion searchTerm))
    ∧ (Forall known_status tasks →
       sum_list (map (fun k => length (column grouped k)) STATUS_KEYS)
       = length (filteredTasks tasks criterion searchTerm)).
Proof.
  intros Hp.
  destruct (groupedTasks_lookup tasks criterion searchTerm sortMode Hp)
    as (grouped & Hrun & Hcol).
  exists grouped. split; [done|].
  assert (Hmem : ∀ k t, t ∈ column grouped k
                        ↔ t ∈ filteredTasks tasks criterion searchTerm ∧ status t = k).
  { intros k t. rewrite Hcol, elem_of_tasksWithStatus.
    unfold prioritizeTasks. by rewrite Array_sort_perm. }
  split; [done|]. split.
  { intros t Ht Hunknown k Hk Hin. apply Hmem in Hin as [_ <-]. contradiction. }
  assert (Hsum : sum_list (map (fun k => length (column grouped k)) STATUS_KEYS)
                 = length (List.filter (fun t => bool_decide (known_status t))
                             (filteredTasks tasks criterion searchTerm))).
  { erewrite map_ext; [|intros k; by rewrite Hcol].
    rewrite count_by_known_status.
    apply Permutation_length, List_filter_Permutation, Array_sort_perm. }
  split; [done|]. intros Hknown. rewrite Hsum. f_equal.
  apply forallb_filter_id, forallb_forall. intros t Ht%list_elem_of_In.
  apply bool_decide_eq_true.
  apply elem_of_List_filter in Ht as [Ht _].
  by eapply Forall_forall in Hknown.
Qed.

(** ** Filtering *)

(** X7.  Whatever statuses the tasks carry, a task passes the criterion
    exactly when the criterion is "all", or equals the task's status, or
    is "high" while the task's priority is "high"; and it passes the
    search when the normalized term is empty or occurs in its lower-cased
    text. *)
Theorem filteredTasks_membership_general `{HostStrings}
    (tasks : list Task) (criterion searchTerm : string) (task : Task) :
  task ∈ filteredTasks tasks criterion searchTerm
  ↔ task ∈ tasks
    ∧ (criterion = "all" ∨ status task = criterion
       ∨ (criterion = "high" ∧ priority task = "high"))
    ∧ searchMatches searchTerm task.
Proof.
  unfold filteredTasks. rewrite elem_of_List_filter.
  unfold filterCallback, searchMatches, haystack.
  set (ns := toLowerCase (trim searchTerm)).
  rewrite <- includes_spec.
  destruct (decide (criterion = "all")) as [Hall|Hall],
           (decide (status task = criterion)) as [Hsf|Hsf],
           (decide (criterion = "high")) as [Hfh|Hfh],
           (decide (priority task = "high")) as [Hph|Hph],
           (decide (ns = "")) as [Hns|Hns];
    repeat first [ rewrite bool_decide_eq_true_2 by assumption
                 | rewrite bool_decide_eq_false_2 by (intros ?; contradiction)
                 | rewrite bool_decide_eq_false_2 by assumption
                 | rewrite bool_decide_eq_true_2 by (intros ?; contradiction) ];
    simpl;
    try destruct (includes (toLowerCase (searchText task)) ns); simpl;
    intuition (try congruence; try discriminate).
Qed.

Lemma List_filter_idempotent {A : Type} (c : A → bool) (l : list A) :
  List.filter c (List.filter c l) = List.filter c l.
Proof.
  induction l as [|x l IH]; simpl; [done|].
  destruct (c x) eqn:E; simpl; [|done]. by rewrite E, IH.
Qed.

(** X8.  The filter keeps the order of the board and only drops tasks;
    filtering its own output again changes nothing; and with criterion
    "all" and a search term that normalizes to the empty string it
    returns the whole board. *)
Theorem filteredTasks_stable_idempotent `{HostStrings}
    (tasks : list Task) (criterion searchTerm : string) :
  sublist (filteredTasks tasks criterion searchTerm) tasks
  ∧ filteredTasks (filteredTasks tasks criterion searchTerm) criterion searchTerm
    = filteredTasks tasks criterion searchTerm
  ∧ (toLowerCase (trim searchTerm) = "" → filteredTasks tasks "all" searchTerm = tasks).
Proof.
  split; [apply filter_sublist|]. split; [apply List_filter_idempotent|].
  intros Hblank. unfold filteredTasks. rewrite Hblank.
  apply forallb_filter_id, forallb_forall. intros t _. reflexivity.
Qed.

(** ** The handlers *)

Lemma map_id_map (f : Task → Task) (l : list Task) :
  (∀ t, id (f t) = id t) → map id (map f l) = map id l.
Proof.
  intros Hf. rewrite map_map. apply map_ext. exact Hf.
Qed.

Lemma handleToggleComplete_ids taskId now current :
  map id (handleToggleComplete taskId now current) = map id current.
Proof.
  apply map_id_map. intros t. by case_bool_decide.
Qed.

Lemma handleStatusChange_ids taskId nextStatus current :
  map id (handleStatusChange taskId nextStatus current) = map id current.
Proof.
  apply map_id_map. intros t. by case_bool_decide.
Qed.

Lemma handleDeleteTask_absent taskId current :
  Forall (fun t => id t ≠ taskId) current → handleDeleteTask taskId current = current.
Proof.
  intros Habs. unfold handleDeleteTask.
  apply forallb_filter_id, forallb_forall. intros t Ht%list_elem_of_In.
  apply bool_decide_eq_true. by eapply Forall_forall in Habs.
Qed.

Lemma NoDup_map_List_filter {A B : Type} (f : A → B) (c : A → bool) (l : list A) :
  NoDup (map f l) → NoDup (map f (List.filter c l)).
Proof.
  intros Hnd. eapply sublist_NoDup; [exact Hnd|].
  induction l as [|x l IH]; simpl; [constructor|].
  apply NoDup_cons in Hnd as [_ Hnd].
  destruct (c x); simpl; constructor; by apply IH.
Qed.

(** X9.  Toggling and moving keep the sequence of ids of the board as it
    is, and every action keeps the ids pairwise different, provided a
    creation brings an id that is not on the board yet. *)
Theorem dispatch_keeps_ids_unique `{HostStrings}
    (action : Action) (now : Z) (current : list Task) :
  (∀ payload newId, action = Create payload newId → newId ∉ map id current) →
  NoDup (map id current) →
  (∀ taskId, map id (handleToggleComplete taskId now current) = map id current)
  ∧ (∀ taskId nextStatus,
       map id (handleStatusChange taskId nextStatus current) = map id current)
  ∧ NoDup (map id (dispatch action now current)).
Proof.
  intros Hfresh Hnd.
  split; [intros; apply handleToggleComplete_ids|].
  split; [intros; apply handleStatusChange_ids|].
  destruct action as [payload newId|taskId|taskId nextStatus|taskId]; simpl.
  - unfold handleCreateTask. case_bool_decide; [done|]. simpl.
    apply NoDup_cons. split; [|done]. by eapply Hfresh.
  - by rewrite handleToggleComplete_ids.
  - by rewrite handleStatusChange_ids.
  - by apply NoDup_map_List_filter.
Qed.

(** X10.  A title that trims to nothing leaves the board unchanged.
    Otherwise exactly one task is put in front of the board: it has the
    given id, the creation instant [now], no [completedAt] (also when it
    is created in status "completed"), and status "today" and priority
    "medium" unless the payload says otherwise.  Deleting that id again
    gives back the board, if the id was not on it. *)
Theorem handleCreateTask_effect `{HostStrings}
    (payload : Payload.t) (newId : string) (now : Z) (current : list Task) :
  (trim (Payload.title payload) = "" →
     handleCreateTask payload newId now current = current)
  ∧ (trim (Payload.title payload) ≠ "" →
     ∃ task, handleCreateTask payload newId now current = task :: current
       ∧ id task = newId ∧ title task = trim (Payload.title payload)
       ∧ createdAt task = Some now ∧ completedAt task = None
       ∧ status task = default "today" (Payload.status payload)
       ∧ priority task = default "medium" (Payload.priority payload)
       ∧ description task ≠ Some "")
  ∧ (Forall (fun t => id t ≠ newId) current →
     handleDeleteTask newId (handleCreateTask payload newId now current) = current).
Proof.
  unfold handleCreateTask. split; [|split].
  - intros Hblank. by rewrite bool_decide_eq_true_2.
  - intros Htitle. rewrite bool_decide_eq_false_2 by done.
    eexists. split; [reflexivity|]. simpl. repeat (split; [done|]).
    case_bool_decide; congruence.
  - intros Hfresh. case_bool_decide.
    + by apply handleDeleteTask_absent.
    + cbn [handleDeleteTask List.filter id].
      rewrite bool_decide_eq_false_2 by (intros ?; contradiction).
      by apply handleDeleteTask_absent.
Qed.

Lemma List_filter_map_commute {A : Type} (c : A → bool) (f : A → A) (l : list A) :
  (∀ x, c (f x) = c x) → List.filter c (map f l) = map f (List.filter c l).
Proof.
  intros Hc. induction l as [|x l IH]; simpl; [done|].
  rewrite Hc. destruct (c x); simpl; by rewrite IH.
Qed.

(** X11.  Deleting removes exactly the tasks with the given id and keeps
    the others in order; deleting an id that is not on the board, or
    deleting twice, changes nothing more; and a deletion can be swapped
    with a toggle or a move of any id. *)
Theorem handleDeleteTask_effect (taskId other nextStatus : string) (now : Z)
    (current : list Task) :
  (∀ t, t ∈ handleDeleteTask taskId current ↔ t ∈ current ∧ id t ≠ taskId)
  ∧ sublist (handleDeleteTask taskId current) current
  ∧ (Forall (fun t => id t ≠ taskId) current → handleDeleteTask taskId current = current)
  ∧ handleDeleteTask taskId (handleDeleteTask taskId current)
    = handleDeleteTask taskId current
  ∧ handleDeleteTask taskId (handleToggleComplete other now current)
    = handleToggleComplete other now (handleDeleteTask taskId current)
  ∧ handleDeleteTask taskId (handleStatusChange other nextStatus current)
    = handleStatusChange other nextStatus (handleDeleteTask taskId current).
Proof.
  split.
  { intros t. unfold handleDeleteTask.
    by rewrite elem_of_List_filter, bool_decide_eq_true. }
  split; [apply filter_sublist|].
  split; [apply handleDeleteTask_absent|].
  split; [apply List_filter_idempotent|].
  split.
  - apply List_filter_map_commute. intros t.
    by destruct (bool_decide (id t ≠ other)).
  - apply List_filter_map_commute. intros t.
    by destruct (bool_decide (id t = other)).
Qed.

Lemma map_fixed_Forall {A : Type} (f : A → A) (l : list A) :
  Forall (fun x => f x = x) l → map f l = l.
Proof.
  induction 1 as [|x l Hx _ IH]; simpl; [done|]. by rewrite Hx, IH.
Qed.

(** X12.  Marking a task done and undoing it is a round trip for the
    tasks of the "today" column that carry no [completedAt]: if every
    task with the given id is such a task, toggling twice gives back the
    board. *)
Theorem toggle_twice_restores_today (taskId : string) (now later : Z)
    (current : list Task) :
  Forall (fun t => id t = taskId → status t = "today" ∧ completedAt t = None) current →
  handleToggleComplete taskId later (handleToggleComplete taskId now current) = current.
Proof.
  intros Hall. unfold handleToggleComplete. rewrite map_map.
  apply map_fixed_Forall. eapply Forall_impl; [exact Hall|].
  intros t Ht. cbv beta.
  destruct (decide (id t = taskId)) as [E|E].
  - destruct (Ht E) as [Hs Hc].
    rewrite (bool_decide_eq_false_2 (id t ≠ taskId)) by (intros ?; contradiction).
    rewrite (bool_decide_eq_false_2 (status t = "completed")) by (rewrite Hs; discriminate).
    cbn [id status]. rewrite bool_decide_eq_false_2 by (intros ?; contradiction).
    rewrite bool_decide_eq_true_2 by done.
    destruct t; simpl in *. by subst.
  - rewrite (bool_decide_eq_true_2 (id t ≠ taskId)) by done.
    by rewrite bool_decide_eq_true_2.
Qed.

(** X13.  Of two moves of the same task the later one wins; moves of
    tasks with different ids can be swapped; and moving a task to the
    status it already has (the "Stay in" entry of the menu) changes
    nothing. *)
Theorem handleStatusChange_composes (a b s1 s2 : string) (current : list Task) :
  handleStatusChange a s2 (handleStatusChange a s1 current) = handleStatusChange a s2 current
  ∧ (a ≠ b →
     handleStatusChange a s1 (handleStatusChange b s2 current)
     = handleStatusChange b s2 (handleStatusChange a s1 current))
  ∧ (Forall (fun t => id t = a → status t = s1) current →
     handleStatusChange a s1 current = current).
Proof.
  unfold handleStatusChange. split; [|split].
  - rewrite map_map. apply map_ext. intros t.
    destruct (decide (id t = a)) as [E|E].
    + rewrite (bool_decide_eq_true_2 (id t = a)) by done. cbn [id].
      by rewrite bool_decide_eq_true_2.
    + rewrite (bool_decide_eq_false_2 (id t = a)) by done.
      by rewrite bool_decide_eq_false_2.
  - intros Hab. rewrite !map_map. apply map_ext. intros t.
    destruct (decide (id t = a)) as [Ea|Ea], (decide (id t = b)) as [Eb|Eb];
      [congruence| | |];
      do 2 (rewrite ?(bool_decide_eq_true_2 (id t = a)),
                    ?(bool_decide_eq_false_2 (id t = a)),
                    ?(bool_decide_eq_true_2 (id t = b)),
                    ?(bool_decide_eq_false_2 (id t = b)) by assumption;
            simpl);
      reflexivity.
  - intros Hall. apply map_fixed_Forall. eapply Forall_impl; [exact Hall|].
    intros t Ht. cbv beta. case_bool_decide as E; [|done].
    specialize (Ht E). destruct t; simpl in *. by subst.
Qed.

(** ** The board as a state machine *)

Lemma sane_wellDated task : sane task → wellDated task.
Proof.
  intros [[c Hc] Hz] _. split; [done|].
  unfold completionInstant. rewrite Hc.
  destruct (completedAt task), (dueDate task); by eexists.
Qed.

Lemma dispatch_sane `{HostStrings} action now current :
  now ≠ 0 → Forall sane current → Forall sane (dispatch action now current).
Proof.
  intros Hnow Hs.
  destruct action as [payload newId|taskId|taskId nextStatus|taskId]; simpl.
  - unfold handleCreateTask. case_bool_decide; [done|].
    constructor; [|done]. split; [by eexists | done].
  - unfold handleToggleComplete. apply Forall_fmap.
    eapply Forall_impl; [exact Hs|]. intros t [Hc Hz]. unfold compose.
    case_bool_decide; [done|]. split; [done|]. cbn [completedAt].
    destruct (bool_decide (status t = "completed")); [done | congruence].
  - unfold handleStatusChange. apply Forall_fmap.
    eapply Forall_impl; [exact Hs|]. intros t [Hc Hz]. unfold compose.
    by case_bool_decide.
  - by apply Forall_List_filter.
Qed.

Lemma run_sane `{HostStrings} script current :
  Forall (fun step => step.2 ≠ 0) script → Forall sane current →
  Forall sane (run script current).
Proof.
  revert current. induction script as [|[action now] script IH]; intros current Hc Hs.
  - done.
  - apply Forall_cons in Hc as [Hnow Hc]. simpl.
    apply IH; [done|]. by apply dispatch_sane.
Qed.

Lemma calculateMetrics_defined {cal : Calendar} now tasks :
  Forall wellDated tasks → is_Some (calculateMetrics now tasks).
Proof.
  intros Hd.
  assert (Hs : is_Some (calculateStreak now (tasksWithStatus "completed" tasks))).
  { unfold calculateStreak. case_bool_decide; [by eexists|].
    assert (Hm : is_Some (mapM completionDay (tasksWithStatus "completed" tasks))).
    { apply mapM_is_Some. apply Forall_forall.
      intros t [Ht Hst]%elem_of_tasksWithStatus.
      eapply Forall_forall in Hd; [|exact Ht].
      destruct (Hd Hst) as [Hz [inst Hi]].
      unfold completionDay, completionInstant, truthy_num in *. simpl.
      destruct (completedAt t) as [c|].
      - destruct (Z.eqb_spec c 0) as [->|_]; [done|]. by eexists.
      - simpl. rewrite Hi. by eexists. }
    destruct Hm as [days ->]. by eexists. }
  destruct Hs as [s Hs].
  destruct (calculateMetrics_fields now tasks s Hs) as (m & Hm & _).
  by exists m.
Qed.

(** X14.  Starting from a board whose tasks all have a creation instant
    and no [completedAt] equal to 0, any sequence of creations, toggles,
    moves and deletions, performed while the clock does not read 0,
    leads to a board of that kind again, and on such a board
    [calculateMetrics] returns a report (it does not throw), in any time
    zone and at any instant. *)
Theorem metrics_defined_on_reachable_boards `{HostStrings} {cal : Calendar}
    (script : list (Action * Z)) (board : list Task) (now : Z) :
  Forall sane board →
  Forall (fun step => step.2 ≠ 0) script →
  Forall sane (run script board)
  ∧ is_Some (calculateMetrics now (run script board)).
Proof.
  intros Hs Hc.
  assert (Hr : Forall sane (run script board)) by by apply run_sane.
  split; [done|]. apply calculateMetrics_defined.
  eapply Forall_impl; [exact Hr|]. apply sane_wellDated.
Qed.

(** ** The report *)

Section ReportFacts.
Context {cal : Calendar}.

Lemma calculateMetrics_report now tasks m :
  calculateMetrics now tasks = Some m →
  completionRate m
  = (inject_Z (Z.of_nat (length (tasksWithStatus "completed" tasks)))
     / inject_Z (Z.of_nat (Nat.max 1 (length tasks))))%Q
  ∧ activeCount m
    = length (List.filter (fun t => bool_decide (status t ≠ "completed")) tasks)
  ∧ dueSoon m = length (List.filter (dueWithinWindow now) tasks)
  ∧ highPriority m
    = length (List.filter (fun t => bool_decide (priority t = "high"))
                (List.filter (fun t => bool_decide (status t ≠ "completed")) tasks))
  ∧ map row_status (byStatus m) = STATUS_KEYS
  ∧ map row_count (byStatus m)
    = map (fun k => length (tasksWithStatus k tasks)) STATUS_KEYS
  ∧ momentumComment m
    = (if Qle_bool (8 # 10) (completionRate m) then MOMENTUM_HIGH
       else if Qle_bool (5 # 10) (completionRate m) then MOMENTUM_SOLID
       else MOMENTUM_LOW)
  ∧ focusArea m = determineFocusArea (completionRate m) (activeCount m) (dueSoon m).
Proof.
  unfold calculateMetrics. cbv zeta. rewrite divide_total. cbn [mbind option_bind].
  destruct (calculateStreak _ _) as [s|]; [|done].
  cbn [mbind option_bind]. intros [= <-].
  cbn [completionRate activeCount dueSoon highPriority byStatus momentumComment focusArea].
  rewrite dueSoon_count. by repeat split.
Qed.

End ReportFacts.

Lemma length_filter_partition {A : Type} (c : A → bool) (l : list A) :
  (length (List.filter c l) + length (List.filter (fun x => negb (c x)) l))%nat = length l.
Proof.
  induction l as [|x l IH]; simpl; [done|].
  destruct (c x); simpl; lia.
Qed.

(** X15.  In every report the completed and the active tasks make up the
    board, the tasks due soon and those of high priority are counted
    among the active ones only, and the completion rate is 1 exactly
    when the board is not empty and has no active task. *)
Theorem metrics_counts {cal : Calendar} (now : Z) (tasks : list Task) :
  Forall wellDated tasks →
  ∃ m, calculateMetrics now tasks = Some m
    ∧ (length (tasksWithStatus "completed" tasks) + activeCount m)%nat = length tasks
    ∧ (dueSoon m ≤ activeCount m)%nat
    ∧ (highPriority m ≤ activeCount m)%nat
    ∧ ((completionRate m == 1)%Q ↔ tasks ≠ [] ∧ activeCount m = 0%nat).
Proof.
  intros Hd. destruct (calculateMetrics_defined now tasks Hd) as [m Hm].
  exists m. split; [done|].
  destruct (calculateMetrics_report now tasks m Hm)
    as (Hrate & Hact & Hdue & Hhigh & _).
  assert (Hpart : (length (tasksWithStatus "completed" tasks) + activeCount m)%nat
                  = length tasks).
  { rewrite Hact, <- (length_filter_partition
                        (fun t => bool_decide (status t = "completed")) tasks).
    unfold tasksWithStatus. f_equal. f_equal. apply filter_ext.
    intros t. by rewrite bool_decide_not. }
  split; [done|]. split.
  { rewrite Hdue, Hact, <- dueSoon_count. apply filter_length_le. }
  split.
  { rewrite Hhigh, Hact. apply filter_length_le. }
  rewrite Hrate.
  destruct (completionRate_bounds tasks) as (Hpos & _ & _).
  assert (Hnz : ¬ (inject_Z (Z.of_nat (Nat.max 1 (length tasks))) == 0)%Q).
  { intros E. rewrite E in Hpos. by apply Qlt_irrefl in Hpos. }
  split.
  - intros Hone.
    assert (Heq : (inject_Z (Z.of_nat (length (tasksWithStatus "completed" tasks)))
                   == inject_Z (Z.of_nat (Nat.max 1 (length tasks))))%Q).
    { rewrite <- (Qmult_div_r _ _ Hnz), Hone. apply Qmult_1_r. }
    apply inject_Z_injective, Nat2Z.inj in Heq.
    destruct tasks as [|t tasks']; [discriminate Heq|].
    split; [done|]. simpl length in *. lia.
  - intros [Hne Hzero].
    assert (Hlen : length (tasksWithStatus "completed" tasks) = Nat.max 1 (length tasks)).
    { destruct tasks; [done|]. simpl length in *. lia. }
    rewrite Hlen. unfold Qdiv. by apply Qmult_inv_r.
Qed.

(** X16.  The breakdown by status always has four rows, for "today",
    "upcoming", "backlog" and "completed" in this order, each counting
    the tasks of its status.  The counts add up to the number of tasks
    with one of these statuses: a task with another status is in no
    row, and the rows cover the board when every status is known. *)
Theorem byStatus_breakdown {cal : Calendar} (now : Z) (tasks : list Task) :
  Forall wellDated tasks →
  ∃ m, calculateMetrics now tasks = Some m
    ∧ map row_status (byStatus m) = STATUS_KEYS
    ∧ map row_count (byStatus m)
      = map (fun k => length (tasksWithStatus k tasks)) STATUS_KEYS
    ∧ sum_list (map row_count (byStatus m))
      = length (List.filter (fun t => bool_decide (known_status t)) tasks)
    ∧ (Forall known_status tasks → sum_list (map row_count (byStatus m)) = length tasks).
Proof.
  intros Hd. destruct (calculateMetrics_defined now tasks Hd) as [m Hm].
  exists m. split; [done|].
  destruct (calculateMetrics_report now tasks m Hm)
    as (_ & _ & _ & _ & Hst & Hcount & _).
  split; [done|]. split; [done|].
  rewrite Hcount, count_by_known_status. split; [done|].
  intros Hknown. f_equal.
  apply forallb_filter_id, forallb_forall. intros t Ht%list_elem_of_In.
  apply bool_decide_eq_true. by eapply Forall_forall in Hknown.
Qed.

(** X17.  The three messages of the summary agree with each other: the
    focus area is "Celebrate & optimize" exactly when the momentum
    comment is the highest one, which is exactly when the completion
    rate is at least 0.8; the theme is "celebrate" exactly when the rate
    is at least 0.85, and then both of these hold; the theme is
    "momentum" exactly when the rate is at least 0.5 and below 0.85; and
    the theme is "plan" exactly when the momentum comment is the lowest
    one, which is exactly when the rate is below 0.5. *)
Theorem summary_messages_agree {cal : Calendar} (now : Z) (tasks : list Task) :
  Forall wellDated tasks →
  ∃ m, calculateMetrics now tasks = Some m
    ∧ (focusArea m = CELEBRATE ↔ (8 # 10 <= completionRate m)%Q)
    ∧ (momentumComment m = MOMENTUM_HIGH ↔ (8 # 10 <= completionRate m)%Q)
    ∧ (themeVariant (completionRate m) = "celebrate" ↔ (85 # 100 <= completionRate m)%Q)
    ∧ (themeVariant (completionRate m) = "momentum"
       ↔ (5 # 10 <= completionRate m)%Q ∧ (completionRate m < 85 # 100)%Q)
    ∧ (themeVariant (completionRate m) = "celebrate" →
       focusArea m = CELEBRATE ∧ momentumComment m = MOMENTUM_HIGH)
    ∧ (themeVariant (completionRate m) = "plan" ↔ momentumComment m = MOMENTUM_LOW)
    ∧ (themeVariant (completionRate m) = "plan" ↔ (completionRate m < 5 # 10)%Q).
Proof.
  intros Hd. destruct (calculateMetrics_defined now tasks Hd) as [m Hm].
  exists m. split; [done|].
  destruct (calculateMetrics_report now tasks m Hm)
    as (_ & _ & _ & _ & _ & _ & Hmom & Hfocus).
  rewrite Hmom, Hfocus. unfold determineFocusArea, themeVariant.
  set (r := completionRate m).
  assert (H85 : Qle_bool (85 # 100) r = true → Qle_bool (8 # 10) r = true).
  { rewrite !Qle_bool_iff. intros Hr. eapply Qle_trans; [|exact Hr].
    unfold Qle. simpl. lia. }
  assert (H80 : Qle_bool (8 # 10) r = true → Qle_bool (5 # 10) r = true).
  { rewrite !Qle_bool_iff. intros Hr. eapply Qle_trans; [|exact Hr].
    unfold Qle. simpl. lia. }
  rewrite <- !Qle_bool_iff, <- !Qle_bool_false_iff.
  destruct (Qle_bool (85 # 100) r) eqn:E85;
    destruct (Qle_bool (8 # 10) r) eqn:E80;
    destruct (Qle_bool (5 # 10) r) eqn:E50;
    try (specialize (H85 eq_refl); discriminate);
    try (specialize (H80 eq_refl); discriminate);
    repeat split; try done;
    repeat match goal with
           | |- context [Z.leb ?a ?b] => destruct (Z.leb a b)
           | |- context [Nat.leb ?a ?b] => destruct (Nat.leb a b)
           end; try done;
    intuition discriminate.
Qed.

Lemma handleToggleComplete_wellDated taskId now current :
  now ≠ 0 → Forall wellDated current →
  Forall wellDated (handleToggleComplete taskId now current).
Proof.
  intros Hnow Hd. unfold handleToggleComplete. apply Forall_fmap.
  eapply Forall_impl; [exact Hd|]. intros t Ht. unfold compose.
  case_bool_decide; [done|].
  destruct (decide (status t = "completed")) as [E|E].
  - rewrite !bool_decide_eq_true_2 by done. intros Hs. discriminate Hs.
  - rewrite !bool_decide_eq_false_2 by done. intros _.
    unfold completionInstant. simpl. split; [congruence | by eexists].
Qed.

(** X18.  Marking an unfinished task done makes the day count: in the
    report computed at the same instant the streak is at least 1,
    because today is among the days with a completed task. *)
Theorem toggle_complete_starts_streak {cal : Calendar} {laws : CalendarLaws cal}
    (taskId : string) (now : Z) (current : list Task) :
  now ≠ 0 →
  Forall wellDated current →
  (∃ t, t ∈ current ∧ id t = taskId ∧ status t ≠ "completed") →
  ∃ m, calculateMetrics now (handleToggleComplete taskId now current) = Some m
    ∧ dayIndex now ∈ completedDays (handleToggleComplete taskId now current)
    ∧ (1 ≤ streak m)%nat.
Proof.
  intros Hnow Hd (t & Ht & Hid & Hst).
  set (board := handleToggleComplete taskId now current).
  assert (Hd' : Forall wellDated board) by by apply handleToggleComplete_wellDated.
  destruct (calculateMetrics_total now board Hd')
    as (m & Hm & _ & _ & Hstop & _).
  assert (Htoday : dayIndex now ∈ completedDays board).
  { unfold completedDays. apply list_elem_of_omap.
    eexists. split.
    - apply elem_of_tasksWithStatus. split.
      + unfold board, handleToggleComplete. apply list_elem_of_fmap.
        exists t. split; [reflexivity | exact Ht].
      + rewrite bool_decide_eq_false_2 by (intros ?; contradiction).
        rewrite bool_decide_eq_false_2 by done. reflexivity.
    - rewrite bool_decide_eq_false_2 by (intros ?; contradiction).
      rewrite bool_decide_eq_false_2 by done. reflexivity. }
  exists m. split; [done|]. split; [done|].
  destruct (streak m) as [|s] eqn:E; [|lia].
  destruct Hstop as [Hstop|Hstop]; [lia|]. exfalso. apply Hstop.
  by replace (dayIndex now - Z.of_nat 0) with (dayIndex now) by lia.
Qed.

(** ** Ages and due labels *)

Lemma Math_round_div x p :
  Math_round (inject_Z x / inject_Z (Z.pos p)) = roundDiv x (Z.pos p).
Proof.
  unfold Math_round, roundDiv.
  assert (E : (inject_Z x / inject_Z (Z.pos p) + (1 # 2)
               == (2 * x + Z.pos p) # (2 * p))%Q).
  { unfold Qeq, Qplus, Qdiv, Qmult, Qinv, inject_Z.
    cbn -[Z.mul Z.add Pos.mul]. rewrite !Pos2Z.inj_mul. lia. }
  rewrite (Qfloor_comp _ _ E). unfold Qfloor. rewrite Pos2Z.inj_mul. reflexivity.
Qed.

Lemma timeSince_unfold now ts :
  ts ≠ 0 →
  timeSince now (Some ts)
  = let minutes := roundDiv (now - ts) 60000 in
    if minutes <? 60 then pretty minutes +:+ " min"
    else
      let hours := roundDiv minutes 60 in
      if hours <? 24 then pretty hours +:+ " hr"
      else
        let days := roundDiv hours 24 in
        pretty days +:+ " day" +:+ (if days =? 1 then "" else "s").
Proof.
  intros Hts. unfold timeSince, truthy_num.
  destruct (Z.eqb_spec ts 0) as [|_]; [done|]. cbn [negb default].
  change (1000 * 60) with (Z.pos 60000).
  change 60%Q with (inject_Z (Z.pos 60)). change 24%Q with (inject_Z (Z.pos 24)).
  by rewrite !Math_round_div.
Qed.

(** X19.  [timeSince] shows "moments" for a missing timestamp and for the
    timestamp 0.  Otherwise, with [diff] the milliseconds elapsed: below
    59.5 minutes it shows the rounded minutes, a number below 60 that is
    negative for a timestamp in the future; from there up to 23 hours
    29.5 minutes it shows between 1 and 23 hours; and from there on it
    shows at least 1 day, "day" in the singular exactly for 1. *)
Theorem timeSince_ranges (now ts : Z) :
  ts ≠ 0 →
  timeSince now None = "moments" ∧ timeSince now (Some 0) = "moments"
  ∧ (now - ts < 3570000 →
     timeSince now (Some ts) = pretty (roundDiv (now - ts) 60000) +:+ " min"
     ∧ roundDiv (now - ts) 60000 < 60
     ∧ (now < ts - 30000 → roundDiv (now - ts) 60000 < 0))
  ∧ (3570000 ≤ now - ts < 84570000 →
     ∃ hours, 1 ≤ hours ≤ 23 ∧ timeSince now (Some ts) = pretty hours +:+ " hr")
  ∧ (84570000 ≤ now - ts →
     ∃ days, 1 ≤ days
       ∧ timeSince now (Some ts)
         = pretty days +:+ " day" +:+ (if days =? 1 then "" else "s")).
Proof.
  intros Hts. split; [done|]. split; [done|].
  rewrite (timeSince_unfold now ts Hts). cbn zeta.
  set (diff := now - ts).
  set (minutes := roundDiv diff 60000).
  set (hours := roundDiv minutes 60).
  set (days := roundDiv hours 24).
  assert (Hmin : minutes < 60 ↔ diff < 3570000).
  { unfold minutes, roundDiv. split; intros; Z.to_euclidean_division_equations; lia. }
  assert (Hhr : hours < 24 ↔ minutes < 1410).
  { unfold hours, roundDiv. split; intros; Z.to_euclidean_division_equations; lia. }
  assert (Hmin2 : minutes < 1410 ↔ diff < 84570000).
  { unfold minutes, roundDiv. split; intros; Z.to_euclidean_division_equations; lia. }
  assert (Hhr1 : 60 ≤ minutes → 1 ≤ hours).
  { unfold hours, roundDiv. intros; Z.to_euclidean_division_equations; lia. }
  assert (Hday1 : 24 ≤ hours → 1 ≤ days).
  { unfold days, roundDiv. intros; Z.to_euclidean_division_equations; lia. }
  split; [|split].
  - intros Hd. apply Hmin in Hd as Hm.
    apply Z.ltb_lt in Hm as Hb. rewrite Hb. split; [done|]. split; [lia|].
    intros Hfuture. unfold minutes, roundDiv, diff.
    Z.to_euclidean_division_equations; lia.
  - intros [Hlo Hhi].
    assert (Hm : ¬ minutes < 60) by (rewrite Hmin; lia).
    apply Z.ltb_nlt in Hm as Hb. rewrite Hb.
    assert (Hh : hours < 24) by (apply Hhr, Hmin2; lia).
    apply Z.ltb_lt in Hh as Hb2. rewrite Hb2.
    exists hours. split; [|done]. split; [apply Hhr1; lia | lia].
  - intros Hlo.
    assert (Hm : ¬ minutes < 60) by (rewrite Hmin; lia).
    apply Z.ltb_nlt in Hm as Hb. rewrite Hb.
    assert (Hh : ¬ hours < 24) by (rewrite Hhr, Hmin2; lia).
    apply Z.ltb_nlt in Hh as Hb2. rewrite Hb2.
    exists days. split; [apply Hday1; lia | done].
Qed.

Section DueLabelFacts.
Context {cal : Calendar} {dates : HostDates}.

Lemma formatDueDate_unfold now date :
  formatDueDate now (Some date)
  = let diffDays := roundDiv (date - setHours0 now) MS_PER_DAY in
    if diffDays =? 0 then "Due today"
    else if diffDays =? 1 then "Due tomorrow"
    else if diffDays <? 0 then
      "Overdue by " +:+ pretty (Z.abs diffDays) +:+ " day"
      +:+ (if Z.abs diffDays =? 1 then "" else "s")
    else toLocaleDateString date.
Proof.
  unfold formatDueDate. change MS_PER_DAY with (Z.pos 86400000).
  by rewrite Math_round_div.
Qed.

Lemma diffDays_bounds off n :
  roundDiv off MS_PER_DAY = n
  ↔ (2 * n - 1) * MS_PER_DAY ≤ 2 * off < (2 * n + 1) * MS_PER_DAY.
Proof.
  unfold roundDiv, MS_PER_DAY.
  split; intros; Z.to_euclidean_division_equations; lia.
Qed.

End DueLabelFacts.

(** X20.  The due label counts days from local midnight today, rounded
    to the nearest day with halves up.  A date within 12 hours before
    and less than 12 hours after that midnight reads "Due today"; from
    12 to less than 36 hours after it reads "Due tomorrow"; more than 12
    hours before it reads "Overdue by n day(s)" with n at least 1 and
    "day" in the singular exactly for n = 1; from 36 hours after on it
    is the date as the locale prints it.  A missing date reads "No
    deadline". *)
Theorem formatDueDate_windows {cal : Calendar} {dates : HostDates} (now date : Z) :
  let off := date - setHours0 now in
  formatDueDate now None = "No deadline"
  ∧ (- MS_PER_DAY ≤ 2 * off < MS_PER_DAY → formatDueDate now (Some date) = "Due today")
  ∧ (MS_PER_DAY ≤ 2 * off < 3 * MS_PER_DAY →
     formatDueDate now (Some date) = "Due tomorrow")
  ∧ (2 * off < - MS_PER_DAY →
     ∃ n, 1 ≤ n ∧ n = - roundDiv off MS_PER_DAY
       ∧ formatDueDate now (Some date)
         = "Overdue by " +:+ pretty n +:+ " day" +:+ (if n =? 1 then "" else "s"))
  ∧ (3 * MS_PER_DAY ≤ 2 * off →
     formatDueDate now (Some date) = toLocaleDateString date).
Proof.
  cbn zeta. split; [done|].
  rewrite formatDueDate_unfold. cbn zeta.
  set (off := date - setHours0 now).
  set (n := roundDiv off MS_PER_DAY).
  pose proof (proj1 (diffDays_bounds off n) eq_refl) as Hn.
  assert (Hneg_n : - roundDiv off MS_PER_DAY = - n) by done.
  clearbody n. unfold MS_PER_DAY in Hn |- *.
  split; [|split; [|split]].
  - intros Hw. assert (n = 0) as -> by lia. done.
  - intros Hw. assert (n = 1) as -> by lia. done.
  - intros Hw. assert (Hneg : n < 0) by lia.
    destruct (Z.eqb_spec n 0) as [|_]; [lia|].
    destruct (Z.eqb_spec n 1) as [|_]; [lia|].
    apply Z.ltb_lt in Hneg as ->.
    exists (- n). split; [lia|]. split; [by rewrite <- Hneg_n|].
    by replace (Z.abs n) with (- n) by lia.
  - intros Hw. assert (Hpos : 2 ≤ n) by lia.
    destruct (Z.eqb_spec n 0) as [|_]; [lia|].
    destruct (Z.eqb_spec n 1) as [|_]; [lia|].
    assert (Hge : ¬ n < 0) by lia. apply Z.ltb_nlt in Hge as ->. done.
Qed.

(** X21.  As long as the locale never prints a date that begins with
    "Overdue", a task card is flagged overdue exactly when its due date
    lies more than 12 hours before local midnight today; a task without
    due date is never flagged. *)
Theorem isOverdue_iff {cal : Calendar} {dates : HostDates} (now date : Z) :
  (∀ d, startsWith "Overdue" (toLocaleDateString d) = false) →
  isOverdue now None = false
  ∧ (isOverdue now (Some date) = true ↔ 2 * (date - setHours0 now) < - MS_PER_DAY).
Proof.
  intros Hhost. split; [done|].
  unfold isOverdue. rewrite formatDueDate_unfold. cbn zeta.
  set (off := date - setHours0 now).
  set (n := roundDiv off MS_PER_DAY).
  pose proof (proj1 (diffDays_bounds off n) eq_refl) as Hn.
  clearbody n. unfold MS_PER_DAY in Hn |- *.
  destruct (Z.eqb_spec n 0) as [E0|N0].
  { split; [done | lia]. }
  destruct (Z.eqb_spec n 1) as [E1|N1].
  { split; [done | lia]. }
  destruct (Z.ltb_spec n 0) as [Hneg|Hpos].
  - split; [lia|]. intros _. reflexivity.
  - rewrite Hhost. split; [done | lia].
Qed.

Lemma fixedOffset_dayIndex_shift offset n tod :
  0 ≤ tod < MS_PER_DAY →
  @dayIndex (fixedOffset offset) (n * MS_PER_DAY - offset + tod) = n.
Proof.
  intros Htod. simpl.
  replace (n * MS_PER_DAY - offset + tod + offset) with (tod + n * MS_PER_DAY) by lia.
  rewrite Z.div_add by done. rewrite Z.div_small by done. lia.
Qed.

Lemma addDays_fixed offset base days :
  @addDays (fixedOffset offset) (fixedNoon offset) base days
  = (@dayIndex (fixedOffset offset) base + days) * MS_PER_DAY
    + 12 * (1000 * 60 * 60) - offset.
Proof.
  unfold addDays, setHours12, setDateBack. cbn zeta.
  cbn [dayNoon fixedNoon]. f_equal. f_equal. f_equal.
  set (d := @dayIndex (fixedOffset offset) base).
  cbn [dayStart fixedOffset].
  replace (d - - days) with (d + days) by lia.
  apply fixedOffset_dayIndex_shift.
  unfold d. simpl.
  pose proof (Z.mod_pos_bound (base + offset) MS_PER_DAY ltac:(done)) as Hm.
  pose proof (Z.div_mod (base + offset) MS_PER_DAY ltac:(done)) as Hdm.
  lia.
Qed.

(** X22.  In a time zone at a fixed offset from UTC, [addDays] lands on
    12:00 local time of the calendar day [days] after that of [base]:
    its result falls on that day, adding days in two steps is adding
    their sum, and the result does not depend on the time of day of
    [base]. *)
Theorem addDays_lands_on_noon (offset base days more : Z) :
  @addDays (fixedOffset offset) (fixedNoon offset) base days
  = @dayStart (fixedOffset offset) (@dayIndex (fixedOffset offset) base + days)
    + 12 * (1000 * 60 * 60)
  ∧ @dayIndex (fixedOffset offset)
      (@addDays (fixedOffset offset) (fixedNoon offset) base days)
    = @dayIndex (fixedOffset offset) base + days
  ∧ @addDays (fixedOffset offset) (fixedNoon offset)
      (@addDays (fixedOffset offset) (fixedNoon offset) base days) more
    = @addDays (fixedOffset offset) (fixedNoon offset) base (days + more)
  ∧ (∀ base', @dayIndex (fixedOffset offset) base' = @dayIndex (fixedOffset offset) base →
       @addDays (fixedOffset offset) (fixedNoon offset) base' days
       = @addDays (fixedOffset offset) (fixedNoon offset) base days).
Proof.
  assert (Hday : ∀ b d,
            @dayIndex (fixedOffset offset)
              (@addDays (fixedOffset offset) (fixedNoon offset) b d)
            = @dayIndex (fixedOffset offset) b + d).
  { intros b d. rewrite addDays_fixed.
    replace ((@dayIndex (fixedOffset offset) b + d) * MS_PER_DAY
             + 12 * (1000 * 60 * 60) - offset)
      with ((@dayIndex (fixedOffset offset) b + d) * MS_PER_DAY - offset
            + 12 * (1000 * 60 * 60)) by lia.
    apply fixedOffset_dayIndex_shift. unfold MS_PER_DAY. lia. }
  split; [|split; [|split]].
  - rewrite addDays_fixed. cbn [dayStart fixedOffset]. lia.
  - apply Hday.
  - rewrite (addDays_fixed offset _ more), Hday,
      (addDays_fixed offset base (days + more)). lia.
  - intros base' Hsame. rewrite !addDays_fixed. by rewrite Hsame.
Qed.

(** X23.  In a time zone at a fixed offset from UTC, a due date made by
    [addDays] is labelled one day late: made for today it reads "Due
    tomorrow", made for yesterday it reads "Due today", made for two or
    more days ago it reads overdue by one day less, and made for
    tomorrow or later it reads as a date.  (Noon is half a day after
    midnight, and the half rounds up.) *)
Theorem formatDueDate_of_addDays {dates : HostDates} (offset now base days : Z) :
  @dayIndex (fixedOffset offset) base = @dayIndex (fixedOffset offset) now →
  let due := @addDays (fixedOffset offset) (fixedNoon offset) base days in
  (days = 0 →
     @formatDueDate (fixedOffset offset) dates now (Some due) = "Due tomorrow")
  ∧ (days = -1 →
     @formatDueDate (fixedOffset offset) dates now (Some due) = "Due today")
  ∧ (days ≤ -2 →
     @formatDueDate (fixedOffset offset) dates now (Some due)
     = "Overdue by " +:+ pretty (- days - 1) +:+ " day"
       +:+ (if - days - 1 =? 1 then "" else "s"))
  ∧ (1 ≤ days →
     @formatDueDate (fixedOffset offset) dates now (Some due) = toLocaleDateString due).
Proof.
  intros Hsame. cbn zeta.
  set (due := @addDays (fixedOffset offset) (fixedNoon offset) base days).
  assert (Hoff : due - @setHours0 (fixedOffset offset) now
                 = days * MS_PER_DAY + 12 * (1000 * 60 * 60)).
  { unfold due. rewrite addDays_fixed, Hsame. unfold setHours0.
    cbn [dayStart fixedOffset]. lia. }
  assert (Hr : roundDiv (due - @setHours0 (fixedOffset offset) now) MS_PER_DAY = days + 1).
  { rewrite Hoff. apply diffDays_bounds. unfold MS_PER_DAY. lia. }
  rewrite (@formatDueDate_unfold (fixedOffset offset) dates now due). cbn zeta.
  rewrite Hr.
  split; [|split; [|split]].
  - by intros ->.
  - by intros ->.
  - intros Hd.
    destruct (Z.eqb_spec (days + 1) 0) as [|_]; [lia|].
    destruct (Z.eqb_spec (days + 1) 1) as [|_]; [lia|].
    assert (Hneg : days + 1 < 0) by lia. apply Z.ltb_lt in Hneg as ->.
    by replace (Z.abs (days + 1)) with (- days - 1) by lia.
  - intros Hd.
    destruct (Z.eqb_spec (days + 1) 0) as [|_]; [lia|].
    destruct (Z.eqb_spec (days + 1) 1) as [|_]; [lia|].
    assert (Hpos : ¬ days + 1 < 0) by lia. by apply Z.ltb_nlt in Hpos as ->.
Qed.

(** ** Completing a task, by toggle and by move *)

Lemma handleToggleComplete_absent taskId now current :
  taskId ∉ map id current → handleToggleComplete taskId now current = current.
Proof.
  intros Habs. apply map_fixed_Forall. apply Forall_forall. intros t Ht.
  rewrite bool_decide_eq_true_2; [done|]. intros E. apply Habs.
  rewrite <- E. apply list_elem_of_fmap. by exists t.
Qed.

Lemma active_after_toggle taskId now current :
  NoDup (map id current) →
  (∃ t, t ∈ current ∧ id t = taskId ∧ status t ≠ "completed") →
  length (List.filter (fun t => bool_decide (status t ≠ "completed")) current)
  = S (length (List.filter (fun t => bool_decide (status t ≠ "completed"))
                 (handleToggleComplete taskId now current))).
Proof.
  induction current as [|x l IH]; intros Hnd (t & Ht & Hid & Hst).
  { by apply elem_of_nil in Ht. }
  cbn [map] in Hnd. apply NoDup_cons in Hnd as [Hx Hnd].
  destruct (decide (id x = taskId)) as [E|E].
  - assert (t = x) as ->.
    { apply elem_of_cons in Ht as [->|Ht]; [done|]. exfalso. apply Hx.
      rewrite E, <- Hid. apply list_elem_of_fmap. by exists t. }
    change (handleToggleComplete taskId now (x :: l))
      with ((fun task =>
               if bool_decide (id task ≠ taskId) then task
               else
                 let isDone := bool_decide (status task = "completed") in
                 {| id := id task; title := title task;
                    description := description task; dueDate := dueDate task;
                    status := if isDone then "today" else "completed";
                    priority := priority task; tags := tags task;
                    createdAt := createdAt task;
                    completedAt := if isDone then None else Some now |}) x
            :: handleToggleComplete taskId now l).
    rewrite (handleToggleComplete_absent taskId now l) by (by rewrite <- E).
    cbn beta zeta. rewrite (bool_decide_eq_false_2 (id x ≠ taskId)) by (intros ?; contradiction).
    rewrite (bool_decide_eq_false_2 (status x = "completed")) by done.
    cbn [List.filter status].
    rewrite (bool_decide_eq_true_2 (status x ≠ "completed")) by done.
    reflexivity.
  - assert (Ht' : t ∈ l).
    { apply elem_of_cons in Ht as [->|Ht]; [congruence | done]. }
    specialize (IH Hnd (ex_intro _ t (conj Ht' (conj Hid Hst)))).
    change (handleToggleComplete taskId now (x :: l))
      with ((if bool_decide (id x ≠ taskId) then x
             else
               let isDone := bool_decide (status x = "completed") in
               {| id := id x; title := title x;
                  description := description x; dueDate := dueDate x;
                  status := if isDone then "today" else "completed";
                  priority := priority x; tags := tags x;
                  createdAt := createdAt x;
                  completedAt := if isDone then None else Some now |})
            :: handleToggleComplete taskId now l).
    rewrite (bool_decide_eq_true_2 (id x ≠ taskId)) by done.
    cbn [List.filter]. destruct (bool_decide (status x ≠ "completed")); simpl; lia.
Qed.

(** X24.  On a board with pairwise different ids, marking an unfinished
    task done lowers the number of active tasks by exactly one and
    raises the number of completed tasks by one. *)
Theorem toggle_complete_counts {cal : Calendar}
    (taskId : string) (now : Z) (current : list Task) :
  now ≠ 0 →
  Forall wellDated current →
  NoDup (map id current) →
  (∃ t, t ∈ current ∧ id t = taskId ∧ status t ≠ "completed") →
  ∃ before after,
    calculateMetrics now current = Some before
    ∧ calculateMetrics now (handleToggleComplete taskId now current) = Some after
    ∧ activeCount before = S (activeCount after)
    ∧ length (tasksWithStatus "completed" (handleToggleComplete taskId now current))
      = S (length (tasksWithStatus "completed" current)).
Proof.
  intros Hnow Hd Hnd Hex.
  set (board := handleToggleComplete taskId now current).
  assert (Hd' : Forall wellDated board) by by apply handleToggleComplete_wellDated.
  destruct (calculateMetrics_defined now current Hd) as [before Hb].
  destruct (calculateMetrics_defined now board Hd') as [after Ha].
  exists before, after. split; [done|]. split; [done|].
  destruct (calculateMetrics_report now current before Hb) as (_ & Hact & _).
  destruct (calculateMetrics_report now board after Ha) as (_ & Hact' & _).
  assert (Hcount : activeCount before = S (activeCount after)).
  { rewrite Hact, Hact'. by apply active_after_toggle. }
  split; [done|].
  pose proof (length_filter_partition
                (fun t => bool_decide (status t = "completed")) current) as Hp.
  pose proof (length_filter_partition
                (fun t => bool_decide (status t = "completed")) board) as Hp'.
  assert (Hlen : length board = length current) by apply length_map.
  assert (Hneg : ∀ l : list Task,
            List.filter (fun t => negb (bool_decide (status t = "completed"))) l
            = List.filter (fun t => bool_decide (status t ≠ "completed")) l).
  { intros l. apply filter_ext. intros t. by rewrite bool_decide_not. }
  rewrite Hneg in Hp, Hp'. rewrite <- Hact in Hp. rewrite <- Hact' in Hp'.
  unfold tasksWithStatus. lia.
Qed.

(** X25.  Moving is not toggling: on a board without completed tasks,
    moving a task that has a due date on another day than today (and no
    [completedAt]) to "completed" leaves the streak at 0, since the task
    counts for the day of its due date and not for today. *)
Theorem move_to_completed_keeps_streak_zero {cal : Calendar} {laws : CalendarLaws cal}
    (taskId : string) (now : Z) (current : list Task) :
  Forall (fun t => status t ≠ "completed") current →
  Forall (fun t => id t = taskId →
                   completedAt t = None
                   ∧ ∃ due, dueDate t = Some due ∧ dayIndex due ≠ dayIndex now) current →
  ∃ m, calculateMetrics now (handleStatusChange taskId "completed" current) = Some m
    ∧ (dayIndex now ∉ completedDays (handleStatusChange taskId "completed" current))
    ∧ streak m = 0%nat.
Proof.
  intros Hnone Hmoved.
  set (board := handleStatusChange taskId "completed" current).
  assert (Hboard : ∀ t', t' ∈ board → status t' = "completed" →
            completedAt t' = None
            ∧ ∃ due, dueDate t' = Some due ∧ dayIndex due ≠ dayIndex now).
  { intros t' Ht' Hst. unfold board, handleStatusChange in Ht'.
    apply list_elem_of_fmap in Ht' as (t & -> & Ht).
    eapply Forall_forall in Hnone; [|exact Ht].
    eapply Forall_forall in Hmoved; [|exact Ht]. cbv beta in Hmoved.
    destruct (decide (id t = taskId)) as [E|E].
    - rewrite bool_decide_eq_true_2 by done. simpl. by apply Hmoved.
    - rewrite bool_decide_eq_false_2 in Hst by done. contradiction. }
  assert (Hd : Forall wellDated board).
  { apply Forall_forall. intros t' Ht' Hst.
    destruct (Hboard t' Ht' Hst) as (Hc & due & Hdue & _).
    unfold completionInstant. rewrite Hc, Hdue. split; [done | by eexists]. }
  destruct (calculateMetrics_total now board Hd) as (m & Hm & _ & Hrun & _).
  assert (Hnot : dayIndex now ∉ completedDays board).
  { unfold completedDays. intros Hin.
    apply list_elem_of_omap in Hin as (t' & Ht' & Hday).
    apply elem_of_tasksWithStatus in Ht' as [Ht' Hst].
    destruct (Hboard t' Ht' Hst) as (Hc & due & Hdue & Hne).
    unfold completionInstant in Hday. rewrite Hc, Hdue in Hday.
    simpl in Hday. congruence. }
  exists m. split; [done|]. split; [done|].
  destruct (streak m) as [|s] eqn:E; [done|].
  exfalso. apply Hnot. specialize (Hrun 0%nat ltac:(lia)).
  by replace (dayIndex now - Z.of_nat 0) with (dayIndex now) in Hrun by lia.
Qed.

(** ** The further statements at work on sample values *)

Lemma demo_no_inherited_status :
  Forall (fun t => status t ∉ OBJECT_PROTOTYPE_KEYS) Demo.board.
Proof.
  repeat constructor; intros H%list_elem_of_In; simpl in H; intuition discriminate.
Qed.

Lemma demo_sane : Forall sane Demo.board.
Proof.
  unfold Demo.board.
  repeat match goal with |- Forall _ _ => constructor end;
    (split; [by eexists | discriminate]).
Qed.

Lemma demo_wellDated : Forall wellDated Demo.board.
Proof.
  eapply Forall_impl; [exact demo_sane | exact sane_wellDated].
Qed.

Lemma demo_clock : Forall (fun step : Action * Z => step.2 ≠ 0) Demo.script.
Proof.
  repeat constructor; discriminate.
Qed.

Example create_scenario :
  handleCreateTask Demo.payload "n1" 100 []
  = [ {| id := "n1"; title := "Book venue"; description := None; dueDate := None;
         status := "completed"; priority := "medium"; tags := None;
         createdAt := Some 100; completedAt := None |} ].
Proof. reflexivity. Qed.

Example run_scenario :
  map (fun t => (id t, status t, completedAt t)) (run Demo.script Demo.board)
  = [("n1", "completed", None); ("a", "completed", Some 200); ("b", "completed", None)].
Proof. reflexivity. Qed.

Example percentage_scenario :
  (fun m => map row_percentage (byStatus m))
    <$> @calculateMetrics (fixedOffset 0) 0 (replicate 23 Sample.A ++ replicate 17 Sample.B)
  = Some [57; 43; 0; 0].
Proof. by vm_compute. Qed.

Example timeSince_scenario :
  timeSince 3600000 (Some 30001) = "59 min"
  ∧ timeSince 3600000 (Some 30000) = "1 hr"
  ∧ timeSince 100 (Some 300100) = "-5 min"
  ∧ timeSince (36 * 3600000 + 1) (Some 1) = "2 days".
Proof. repeat split; by vm_compute. Qed.

Lemma prioritizeTasks_idempotent_witness :
  ("priority" = "priority" → Forall known_priority [Sample.B; Sample.A; Sample.C; Sample.A2])
  ∧ prioritizeTasks
      (prioritizeTasks [Sample.B; Sample.A; Sample.C; Sample.A2] "priority") "priority"
    = prioritizeTasks [Sample.B; Sample.A; Sample.C; Sample.A2] "priority".
Proof.
  split; [intros _; exact sample_known_priority_ties|].
  exact (proj2 (prioritizeTasks_idempotent [Sample.B; Sample.A; Sample.C; Sample.A2]
                  "priority" (fun _ => sample_known_priority_ties))).
Defined.

Lemma prioritizeTasks_filter_witness :
  ("priority" = "priority" → Forall known_priority [Sample.B; Sample.A; Sample.C; Sample.A2])
  ∧ List.filter (fun t => bool_decide (status t = "today"))
      (prioritizeTasks [Sample.B; Sample.A; Sample.C; Sample.A2] "priority")
    = prioritizeTasks
        (List.filter (fun t => bool_decide (status t = "today"))
           [Sample.B; Sample.A; Sample.C; Sample.A2]) "priority".
Proof.
  split; [intros _; exact sample_known_priority_ties|].
  exact (prioritizeTasks_filter [Sample.B; Sample.A; Sample.C; Sample.A2] "priority"
           (fun t => bool_decide (status t = "today"))
           (fun _ => sample_known_priority_ties)).
Defined.

Lemma groupedTasks_columns_witness :
  ("priority" = "priority" → Forall known_priority Demo.board)
  ∧ Forall (fun t => status t ∉ OBJECT_PROTOTYPE_KEYS) Demo.board
  ∧ ∃ grouped, groupedTasks Demo.board "all" "" "priority" = Some grouped
      ∧ column grouped "today" = [Sample.A].
Proof.
  split; [intros _; exact sample_known_priority|].
  split; [exact demo_no_inherited_status|].
  destruct (groupedTasks_columns Demo.board "all" "" "priority"
              (fun _ => sample_known_priority) demo_no_inherited_status)
    as (grouped & Hrun & Hcol).
  exists grouped. split; [exact Hrun|]. rewrite Hcol. reflexivity.
Defined.

Lemma groupedTasks_complete_witness :
  Forall (fun t => status t ∉ OBJECT_PROTOTYPE_KEYS) Demo.board
  ∧ ∃ grouped, groupedTasks Demo.board "all" "" "dueDate" = Some grouped
      ∧ sum_list (map (fun k => length (column grouped k)) STATUS_KEYS) = 3%nat.
Proof.
  split; [exact demo_no_inherited_status|].
  destruct (groupedTasks_complete Demo.board "all" "" "dueDate" demo_no_inherited_status)
    as (grouped & Hrun & _ & _ & Hsum & _).
  exists grouped. split; [exact Hrun|]. rewrite Hsum. reflexivity.
Defined.

Lemma filteredTasks_stable_idempotent_witness :
  toLowerCase (trim "   ") = ""
  ∧ filteredTasks Demo.board "all" "   " = Demo.board.
Proof.
  split; [reflexivity|].
  exact (proj2 (proj2 (filteredTasks_stable_idempotent Demo.board "all" "   ")) eq_refl).
Defined.

Lemma demo_fresh_id :
  ∀ payload newId, Create Demo.payload "n1" = Create payload newId →
                   newId ∉ map id Demo.board.
Proof.
  intros payload newId [= _ <-] Hin%list_elem_of_In. simpl in Hin.
  intuition discriminate.
Qed.

Lemma demo_ids_unique : NoDup (map id Demo.board).
Proof.
  simpl. repeat (apply NoDup_cons; split;
                 [intros Hin%list_elem_of_In; simpl in Hin; intuition discriminate|]).
  apply NoDup_nil. exact I.
Qed.

Lemma dispatch_keeps_ids_unique_witness :
  (∀ payload newId, Create Demo.payload "n1" = Create payload newId →
                    newId ∉ map id Demo.board)
  ∧ NoDup (map id Demo.board)
  ∧ NoDup (map id (dispatch (Create Demo.payload "n1") 100 Demo.board)).
Proof.
  split; [exact demo_fresh_id|]. split; [exact demo_ids_unique|].
  exact (proj2 (proj2 (dispatch_keeps_ids_unique (Create Demo.payload "n1") 100 Demo.board
                         demo_fresh_id demo_ids_unique))).
Defined.

Lemma demo_id_absent : Forall (fun t => id t ≠ "n1") Demo.board.
Proof. repeat constructor; discriminate. Qed.

Lemma handleCreateTask_effect_witness :
  Forall (fun t => id t ≠ "n1") Demo.board
  ∧ handleDeleteTask "n1" (handleCreateTask Demo.payload "n1" 100 Demo.board) = Demo.board.
Proof.
  split; [exact demo_id_absent|].
  exact (proj2 (proj2 (handleCreateTask_effect Demo.payload "n1" 100 Demo.board))
           demo_id_absent).
Defined.

Lemma handleDeleteTask_effect_witness :
  Forall (fun t => id t ≠ "n1") Demo.board
  ∧ handleDeleteTask "n1" Demo.board = Demo.board.
Proof.
  split; [exact demo_id_absent|].
  exact (proj1 (proj2 (proj2 (handleDeleteTask_effect "n1" "a" "today" 0 Demo.board)))
           demo_id_absent).
Defined.

Lemma demo_today_task :
  Forall (fun t => id t = "kickoff" → status t = "today" ∧ completedAt t = None)
         [Sample.dueAtNoon; Sample.B].
Proof.
  repeat match goal with |- Forall _ _ => constructor end; simpl; intros E;
    first [ discriminate E | done ].
Qed.

Lemma toggle_twice_restores_today_witness :
  Forall (fun t => id t = "kickoff" → status t = "today" ∧ completedAt t = None)
         [Sample.dueAtNoon; Sample.B]
  ∧ handleToggleComplete "kickoff" 9
      (handleToggleComplete "kickoff" 7 [Sample.dueAtNoon; Sample.B])
    = [Sample.dueAtNoon; Sample.B].
Proof.
  split; [exact demo_today_task|].
  exact (toggle_twice_restores_today "kickoff" 7 9 [Sample.dueAtNoon; Sample.B]
           demo_today_task).
Defined.

Lemma handleStatusChange_composes_witness :
  "a" ≠ "b"
  ∧ handleStatusChange "a" "backlog" (handleStatusChange "b" "today" Demo.board)
    = handleStatusChange "b" "today" (handleStatusChange "a" "backlog" Demo.board).
Proof.
  assert (H : "a" ≠ "b") by discriminate.
  split; [exact H|].
  exact (proj1 (proj2 (handleStatusChange_composes "a" "b" "backlog" "today" Demo.board)) H).
Defined.

Lemma metrics_defined_on_reachable_boards_witness :
  Forall sane Demo.board
  ∧ Forall (fun step : Action * Z => step.2 ≠ 0) Demo.script
  ∧ is_Some (@calculateMetrics (fixedOffset 0) 500 (run Demo.script Demo.board)).
Proof.
  split; [exact demo_sane|]. split; [exact demo_clock|].
  exact (proj2 (@metrics_defined_on_reachable_boards asciiStrings (fixedOffset 0)
                  Demo.script Demo.board 500 demo_sane demo_clock)).
Defined.

Lemma metrics_counts_witness :
  Forall wellDated Sample.threeDayRun
  ∧ ∃ m, @calculateMetrics (fixedOffset 0) Sample.afternoon Sample.threeDayRun = Some m
      ∧ (dueSoon m ≤ activeCount m)%nat.
Proof.
  split; [exact sample_wellDated|].
  destruct (@metrics_counts (fixedOffset 0) Sample.afternoon Sample.threeDayRun
              sample_wellDated) as (m & Hrun & _ & Hle & _).
  exists m. split; [exact Hrun | exact Hle].
Defined.

Lemma byStatus_breakdown_witness :
  Forall wellDated Sample.threeDayRun
  ∧ ∃ m, @calculateMetrics (fixedOffset 0) Sample.afternoon Sample.threeDayRun = Some m
      ∧ map row_count (byStatus m) = [1; 0; 0; 4]%nat.
Proof.
  split; [exact sample_wellDated|].
  destruct (@byStatus_breakdown (fixedOffset 0) Sample.afternoon Sample.threeDayRun
              sample_wellDated) as (m & Hrun & _ & Hcount & _).
  exists m. split; [exact Hrun|]. rewrite Hcount. reflexivity.
Defined.

Lemma summary_messages_agree_witness :
  Forall wellDated Sample.threeDayRun
  ∧ ∃ m, @calculateMetrics (fixedOffset 0) Sample.afternoon Sample.threeDayRun = Some m
      ∧ (focusArea m = CELEBRATE ↔ (8 # 10 <= completionRate m)%Q).
Proof.
  split; [exact sample_wellDated|].
  destruct (@summary_messages_agree (fixedOffset 0) Sample.afternoon Sample.threeDayRun
              sample_wellDated) as (m & Hrun & Hiff & _).
  exists m. split; [exact Hrun | exact Hiff].
Defined.

Lemma demo_has_active :
  ∃ t, t ∈ Demo.board ∧ id t = "a" ∧ status t ≠ "completed".
Proof.
  exists Sample.A. split; [by left|]. split; [reflexivity | discriminate].
Qed.

Lemma toggle_complete_starts_streak_witness :
  (200 ≠ 0 ∧ Forall wellDated Demo.board
   ∧ ∃ t, t ∈ Demo.board ∧ id t = "a" ∧ status t ≠ "completed")
  ∧ ∃ m, @calculateMetrics (fixedOffset 0) 200 (handleToggleComplete "a" 200 Demo.board)
         = Some m
      ∧ (1 ≤ streak m)%nat.
Proof.
  assert (Hnow : 200 ≠ 0) by discriminate.
  split; [split; [exact Hnow | split; [exact demo_wellDated | exact demo_has_active]]|].
  destruct (@toggle_complete_starts_streak (fixedOffset 0) (fixedOffset_laws 0)
              "a" 200 Demo.board Hnow demo_wellDated demo_has_active)
    as (m & Hrun & _ & Hstreak).
  exists m. split; [exact Hrun | exact Hstreak].
Defined.

Lemma timeSince_ranges_witness :
  1 ≠ 0 ∧ timeSince 7200001 (Some 1) = pretty 2 +:+ " hr".
Proof.
  assert (H : 1 ≠ 0) by discriminate.
  split; [exact H|].
  destruct (proj1 (proj2 (proj2 (proj2 (timeSince_ranges 7200001 1 H)))))
    as (hours & Hb & Hrun); [lia|].
  reflexivity.
Defined.

Lemma isOverdue_iff_witness :
  (∀ d, startsWith "Overdue" (@toLocaleDateString Demo.plainDates d) = false)
  ∧ (@isOverdue (fixedOffset 0) Demo.plainDates Sample.afternoon
       (Some (Sample.noon - Sample.day 1)) = true
     ↔ 2 * (Sample.noon - Sample.day 1 - @setHours0 (fixedOffset 0) Sample.afternoon)
       < - MS_PER_DAY).
Proof.
  assert (H : ∀ d, startsWith "Overdue" (@toLocaleDateString Demo.plainDates d) = false)
    by (intros d; reflexivity).
  split; [exact H|].
  exact (proj2 (@isOverdue_iff (fixedOffset 0) Demo.plainDates
                  Sample.afternoon (Sample.noon - Sample.day 1) H)).
Defined.

Lemma formatDueDate_of_addDays_witness :
  @dayIndex (fixedOffset 0) Sample.afternoon = @dayIndex (fixedOffset 0) Sample.afternoon
  ∧ @formatDueDate (fixedOffset 0) Demo.plainDates Sample.afternoon
      (Some (@addDays (fixedOffset 0) (fixedNoon 0) Sample.afternoon 0))
    = "Due tomorrow".
Proof.
  split; [reflexivity|].
  exact (proj1 (@formatDueDate_of_addDays Demo.plainDates 0 Sample.afternoon
                  Sample.afternoon 0 eq_refl) eq_refl).
Defined.

Lemma toggle_complete_counts_witness :
  (200 ≠ 0 ∧ Forall wellDated Demo.board ∧ NoDup (map id Demo.board)
   ∧ ∃ t, t ∈ Demo.board ∧ id t = "a" ∧ status t ≠ "completed")
  ∧ ∃ before after,
      @calculateMetrics (fixedOffset 0) 200 Demo.board = Some before
      ∧ @calculateMetrics (fixedOffset 0) 200 (handleToggleComplete "a" 200 Demo.board)
        = Some after
      ∧ activeCount before = S (activeCount after).
Proof.
  assert (Hnow : 200 ≠ 0) by discriminate.
  split.
  { split; [exact Hnow|]. split; [exact demo_wellDated|].
    split; [exact demo_ids_unique | exact demo_has_active]. }
  destruct (@toggle_complete_counts (fixedOffset 0) "a" 200 Demo.board
              Hnow demo_wellDated demo_ids_unique demo_has_active)
    as (before & after & Hb & Ha & Hcount & _).
  exists before, after. split; [exact Hb|]. split; [exact Ha | exact Hcount].
Defined.

Lemma demo_none_completed : Forall (fun t => status t ≠ "completed") Demo.board.
Proof. repeat constructor; discriminate. Qed.

Lemma demo_due_elsewhere :
  Forall (fun t => id t = "b" →
                   completedAt t = None
                   ∧ ∃ due, dueDate t = Some due
                            ∧ @dayIndex (fixedOffset 0) due ≠ @dayIndex (fixedOffset 0) 200)
         Demo.board.
Proof.
  unfold Demo.board.
  repeat match goal with |- Forall _ _ => constructor end; intros E;
    first [ discriminate E
          | split; [reflexivity|]; eexists; split; [reflexivity|]; by vm_compute ].
Qed.

Lemma move_to_completed_keeps_streak_zero_witness :
  (Forall (fun t => status t ≠ "completed") Demo.board
   ∧ Forall (fun t => id t = "b" →
                      completedAt t = None
                      ∧ ∃ due, dueDate t = Some due
                               ∧ @dayIndex (fixedOffset 0) due ≠ @dayIndex (fixedOffset 0) 200)
            Demo.board)
  ∧ ∃ m, @calculateMetrics (fixedOffset 0) 200 (handleStatusChange "b" "completed" Demo.board)
         = Some m
      ∧ streak m = 0%nat.
Proof.
  split; [split; [exact demo_none_completed | exact demo_due_elsewhere]|].
  destruct (@move_to_completed_keeps_streak_zero (fixedOffset 0) (fixedOffset_laws 0)
              "b" 200 Demo.board demo_none_completed demo_due_elsewhere)
    as (m & Hrun & _ & Hzero).
  exists m. split; [exact Hrun | exact Hzero].
Defined.
